(** * flask-back: the medical-report upload service of [app.py]

    A shallow embedding of [src/app.py] and of the Python library
    functions it calls, followed by the properties of the upload
    endpoint, of the file dispatcher and of the response parser.

    Conventions of the embedding.
    - A Python [str] is the list of its code points ([pystr]); [u] turns a
      literal into one.  [str.lower] is exact for code points below 256
      and leaves the others unchanged (the Unicode case tables are not
      part of the model).
    - Python objects that come out of [json.loads] are values of [pyval];
      the dicts built by the program with fixed keys are records.
    - Code that can raise returns a [result]; code that also reads or
      writes the file system or calls the model runs in the monad [M].
    - What the outside world answers (the generative model, the PDF
      rasteriser, the JPEG encoder, the disk) is a field of [env].
    - Logging with [print], interpreter resource limits (recursion depth,
      integer digit limit, memory) and POSIX path aliasing are not
      modelled. *)

From Stdlib Require Import List Bool Arith NArith ZArith Lia String Ascii.
Import ListNotations.

Set Warnings "-register-all".
Local Open Scope Z_scope.

(* ================================================================== *)
(** * Python strings *)

Module PyStr.

Definition pystr := list N.

(** A literal: the code points of an ASCII string. *)
Definition u (s : string) : pystr :=
  map N_of_ascii (list_ascii_of_string s).

Fixpoint eqb (a b : pystr) : bool :=
  match a, b with
  | [], [] => true
  | x :: a', y :: b' => N.eqb x y && eqb a' b'
  | _, _ => false
  end.

(** [s.startswith(p)] *)
Fixpoint startswith (p s : pystr) : bool :=
  match p, s with
  | [], _ => true
  | x :: p', y :: s' => N.eqb x y && startswith p' s'
  | _ :: _, [] => false
  end.

(** [s.endswith(p)] *)
Definition endswith (p s : pystr) : bool :=
  startswith (rev p) (rev s).

(** [x in l] for a list of strings. *)
Definition mem (x : pystr) (l : list pystr) : bool :=
  existsb (eqb x) l.

(** [s.rfind(c)] for a one-character [c], counting from index [i]:
    the greatest index of [c], or -1. *)
Fixpoint rfind_from (c : N) (s : pystr) (i : Z) : Z :=
  match s with
  | [] => -1
  | x :: s' =>
      let r := rfind_from c s' (i + 1) in
      if 0 <=? r then r else if N.eqb x c then i else -1
  end.

Definition rfind (c : N) (s : pystr) : Z := rfind_from c s 0.

(** The slice [s[i:j]] for [0 <= i]. *)
Definition slice (s : pystr) (i j : Z) : pystr :=
  firstn (Z.to_nat (j - i)) (skipn (Z.to_nat i) s).

(** [str.isspace] of one character (the table of CPython's
    [_PyUnicode_IsWhitespace]). *)
Definition isspace (c : N) : bool :=
  (((9 <=? c) && (c <=? 13)) || ((28 <=? c) && (c <=? 32))
   || (c =? 133) || (c =? 160) || (c =? 5760)
   || ((8192 <=? c) && (c <=? 8202))
   || (c =? 8232) || (c =? 8233) || (c =? 8239) || (c =? 8287)
   || (c =? 12288))%N.

Fixpoint lstrip (s : pystr) : pystr :=
  match s with
  | [] => []
  | c :: s' => if isspace c then lstrip s' else s
  end.

Definition rstrip (s : pystr) : pystr := rev (lstrip (rev s)).

(** [s.strip()] *)
Definition strip (s : pystr) : pystr := rstrip (lstrip s).

(** [str.lower] of one character, exact below 256. *)
Definition lower_char (c : N) : N :=
  (if ((65 <=? c) && (c <=? 90))
      || ((192 <=? c) && (c <=? 222) && negb (c =? 215))
   then c + 32 else c)%N.

Definition lower (s : pystr) : pystr := map lower_char s.

End PyStr.
Export PyStr.

(* ================================================================== *)
(** * [os.path] (posixpath) *)

Module OsPath.

Definition sep : N := 47.     (* "/" *)
Definition extsep : N := 46.  (* "." *)

(** [os.path.join(a, b)] *)
Definition join (a b : pystr) : pystr :=
  if startswith [sep] b then b
  else if PyStr.eqb a [] || endswith [sep] a then a ++ b
  else a ++ [sep] ++ b.

(** [os.path.splitext(p)]: the extension starts at the last dot, if that
    dot comes after the last separator and some character between the
    separator and the dot is not a dot. *)
Definition splitext (p : pystr) : pystr * pystr :=
  let sepIndex := rfind sep p in
  let dotIndex := rfind extsep p in
  if (sepIndex <? dotIndex)
     && existsb (fun c => negb (N.eqb c extsep))
                (slice p (sepIndex + 1) dotIndex)
  then (slice p 0 dotIndex, skipn (Z.to_nat dotIndex) p)
  else (p, []).

End OsPath.

(* ================================================================== *)
(** * Python floats

    A [float] is an IEEE binary64 value, kept exactly: a finite float is
    [(-1)^neg * m * 2^e] with [m] odd, or [m = 0] and [e = 0]. *)

Module PyFloat.

Inductive pyfloat :=
| FNan
| FInf (neg : bool)
| FFin (neg : bool) (m : N) (e : Z).

Fixpoint normalize_pos (m : positive) (e : Z) : positive * Z :=
  match m with
  | xO m' => normalize_pos m' (e + 1)
  | _ => (m, e)
  end.

Definition finite (neg : bool) (m : N) (e : Z) : pyfloat :=
  match m with
  | N0 => FFin neg 0 0
  | Npos p => let '(p', e') := normalize_pos p e in FFin neg (Npos p') e'
  end.

(** [n / d] rounded to the nearest integer, ties to even ([0 < d]). *)
Definition div_half_even (n d : Z) : Z :=
  let q := n / d in
  match 2 * (n mod d) ?= d with
  | Lt => q
  | Gt => q + 1
  | Eq => if Z.even q then q else q + 1
  end.

(** [float(lexeme)] for the decimal [(-1)^neg * d * 10^x], correctly
    rounded: 53 bits of precision, least exponent -1074, overflow to
    infinity from [2^1024]. *)
Definition of_decimal (neg : bool) (d : N) (x : Z) : pyfloat :=
  match d with
  | N0 => FFin neg 0 0
  | _ =>
      let p := Z.of_N d * 10 ^ Z.max 0 x in
      let q := 10 ^ Z.max 0 (- x) in
      let k0 := Z.log2 p - Z.log2 q in
      let k := if q * 2 ^ Z.max 0 k0 <=? p * 2 ^ Z.max 0 (- k0)
               then k0 else k0 - 1 in
      let E := Z.max (k - 52) (-1074) in
      let n := div_half_even (p * 2 ^ Z.max 0 (- E)) (q * 2 ^ Z.max 0 E) in
      if (1023 <? k) || ((E =? 971) && (n =? 2 ^ 53)) then FInf neg
      else finite neg (Z.to_N n) E
  end.

Definition eqb (a b : pyfloat) : bool :=
  match a, b with
  | FNan, FNan => true
  | FInf s, FInf t => Bool.eqb s t
  | FFin s m e, FFin t n f => Bool.eqb s t && N.eqb m n && Z.eqb e f
  | _, _ => false
  end.

(** [bool(f)] *)
Definition truthy (f : pyfloat) : bool :=
  match f with
  | FFin _ m _ => negb (N.eqb m 0)
  | _ => true
  end.

End PyFloat.
Export PyFloat(pyfloat, FNan, FInf, FFin).

(* ================================================================== *)
(** * Python values *)

Module PyVal.

Inductive pyval :=
| PNone
| PBool (b : bool)
| PInt (z : Z)
| PFloat (f : pyfloat)
| PStr (s : pystr)
| PList (l : list pyval)
| PDict (d : list (pyval * pyval)).

(** A [dict]: its items in insertion order, no two keys equal. *)
Definition pydict := list (pyval * pyval).

(** ** Keys: hashing and equality

    [None], strings and numbers are hashable; [True == 1 == 1.0] are one
    key.  Lists and dicts are not hashable. *)

Inductive pykey :=
| KNone
| KStr (s : pystr)
| KInt (z : Z)
| KFloat (f : pyfloat).   (* not an integer: fraction, infinity, nan *)

Definition key_of (v : pyval) : option pykey :=
  match v with
  | PNone => Some KNone
  | PBool b => Some (KInt (if b then 1 else 0))
  | PInt z => Some (KInt z)
  | PFloat (FFin neg m e) =>
      Some (if 0 <=? e
            then KInt ((if neg then -1 else 1) * (Z.of_N m * 2 ^ e))
            else KFloat (FFin neg m e))
  | PFloat f => Some (KFloat f)
  | PStr s => Some (KStr s)
  | PList _ => None
  | PDict _ => None
  end.

Definition pykey_eqb (a b : pykey) : bool :=
  match a, b with
  | KNone, KNone => true
  | KStr s, KStr t => PyStr.eqb s t
  | KInt x, KInt y => Z.eqb x y
  | KFloat f, KFloat g => PyFloat.eqb f g
  | _, _ => false
  end.

(** Equality of two objects used as keys. *)
Definition key_eqb (a b : pyval) : bool :=
  match key_of a, key_of b with
  | Some x, Some y => pykey_eqb x y
  | _, _ => false
  end.

(** [d.get(k)] *)
Fixpoint dict_get (k : pyval) (d : pydict) : option pyval :=
  match d with
  | [] => None
  | (k', v) :: d' => if key_eqb k' k then Some v else dict_get k d'
  end.

(** [d[k] = v]: an existing key keeps its place and its key object. *)
Fixpoint dict_set (k v : pyval) (d : pydict) : pydict :=
  match d with
  | [] => [(k, v)]
  | (k', v') :: d' =>
      if key_eqb k' k then (k', v) :: d' else (k', v') :: dict_set k v d'
  end.

(** [bool(v)] *)
Definition truthy (v : pyval) : bool :=
  match v with
  | PNone => false
  | PBool b => b
  | PInt z => negb (Z.eqb z 0)
  | PFloat f => PyFloat.truthy f
  | PStr s => negb (PyStr.eqb s [])
  | PList l => match l with [] => false | _ => true end
  | PDict d => match d with [] => false | _ => true end
  end.

(** ** Exceptions *)

(** Why a built-in operation of Python raised. *)
Inductive fault :=
| NotSubscriptable (v : pyval)            (* TypeError: v[...] *)
| BadIndex (v : pyval)                    (* TypeError: a list or str indexed by a str *)
| NotIterable (v : pyval)                 (* TypeError: dict.update(v) *)
| NotASequence (i : nat) (item : pyval)   (* TypeError: update element #i *)
| BadLength (i : nat) (len : nat)         (* ValueError: update element #i *)
| Unhashable (k : pyval)                  (* TypeError: key of a dict *)
| UnorderableKeys (d : pydict).           (* TypeError: sorting the keys of d *)

Inductive exn :=
| ValueError (msg : pystr)        (* raised by the program, with its message *)
| JSONDecodeError                 (* raised by json.loads *)
| KeyError (key : pystr)
| FileNotFoundError (path : pystr)
| LibraryError (f : fault)        (* raised by a built-in *)
| ExternalError (msg : pystr).    (* raised by the outside world, with its str() *)

Inductive result (A : Type) :=
| Ok (a : A)
| Raise (e : exn).
Arguments Ok {A} a.
Arguments Raise {A} e.

Definition rbind {A B} (r : result A) (k : A -> result B) : result B :=
  match r with
  | Ok a => k a
  | Raise e => Raise e
  end.

(** ** Subscription and update *)

(** [v[key]] for a string [key]. *)
Definition subscript (v : pyval) (key : pystr) : result pyval :=
  match v with
  | PDict d =>
      match dict_get (PStr key) d with
      | Some x => Ok x
      | None => Raise (KeyError key)
      end
  | PList _ => Raise (LibraryError (BadIndex v))
  | PStr _ => Raise (LibraryError (BadIndex v))
  | _ => Raise (LibraryError (NotSubscriptable v))
  end.

(** The key and the value that [dict.update] reads from element [i] of
    a sequence: the element is turned into a list and must have two
    members (a string gives its characters, a dict its keys). *)
Definition update_pair (i : nat) (item : pyval) : result (pyval * pyval) :=
  match item with
  | PStr s =>
      match s with
      | [a; b] => Ok (PStr [a], PStr [b])
      | _ => Raise (LibraryError (BadLength i (List.length s)))
      end
  | PList l =>
      match l with
      | [a; b] => Ok (a, b)
      | _ => Raise (LibraryError (BadLength i (List.length l)))
      end
  | PDict d =>
      match d with
      | [(a, _); (b, _)] => Ok (a, b)
      | _ => Raise (LibraryError (BadLength i (List.length d)))
      end
  | _ => Raise (LibraryError (NotASequence i item))
  end.

Fixpoint update_from_seq (i : nat) (items : list pyval) (d : pydict)
  : result pydict :=
  match items with
  | [] => Ok d
  | item :: rest =>
      rbind (update_pair i item) (fun '(k, v) =>
        match key_of k with
        | None => Raise (LibraryError (Unhashable k))
        | Some _ => update_from_seq (S i) rest (dict_set k v d)
        end)
  end.

(** [d.update(other)], returning the updated dict. *)
Definition dict_update (d : pydict) (other : pyval) : result pydict :=
  match other with
  | PDict o => Ok (fold_left (fun acc kv => dict_set (fst kv) (snd kv) acc) o d)
  | PList l => update_from_seq 0 l d
  | PStr s => update_from_seq 0 (map (fun c => PStr [c]) s) d
  | _ => Raise (LibraryError (NotIterable other))
  end.

(** ** Serialisation with sorted keys

    Flask's [jsonify] serialises with [sort_keys=True]: sorting compares
    the keys of every dict, which raises when they are not all strings
    or all numbers. *)

Inductive keyclass := CNone | CStr | CNum.

Definition keyclass_eqb (a b : keyclass) : bool :=
  match a, b with
  | CNone, CNone | CStr, CStr | CNum, CNum => true
  | _, _ => false
  end.

Definition class_of (k : pyval) : keyclass :=
  match k with
  | PNone => CNone
  | PStr _ => CStr
  | _ => CNum
  end.

Definition orderable (d : pydict) : bool :=
  match d with
  | [] => true
  | (k, _) :: d' =>
      forallb (fun kv => keyclass_eqb (class_of (fst kv)) (class_of k)) d'
      && match d' with [] => true | _ => negb (keyclass_eqb (class_of k) CNone) end
  end.

Fixpoint unorderable_dict (v : pyval) : option pydict :=
  match v with
  | PList l =>
      (fix first (l : list pyval) : option pydict :=
         match l with
         | [] => None
         | x :: l' =>
             match unorderable_dict x with
             | Some d => Some d
             | None => first l'
             end
         end) l
  | PDict d =>
      if orderable d then
        (fix first (d : list (pyval * pyval)) : option pydict :=
           match d with
           | [] => None
           | (_, x) :: d' =>
               match unorderable_dict x with
               | Some e => Some e
               | None => first d'
               end
           end) d
      else Some d
  | _ => None
  end.

End PyVal.
Export PyVal.

(* ================================================================== *)
(** * [json.loads]

    The decoder of Python's [json] module with its default settings, as
    one pass over the characters: a lexer state for the token being
    read and a stack of the containers that are open.  It accepts the
    JSON grammar with white space [" \t\n\r"], the constants [NaN],
    [Infinity] and [-Infinity], rejects control characters inside
    strings, joins surrogate pairs written as two [\u] escapes, and
    lets the last of two equal keys win. *)

Module Json.

(** ** The containers that are open *)

Inductive frame :=
| FArr (items : list pyval)
| FObj (pairs : pydict) (key : option pystr).

Inductive expect :=
| XValue          (* a value must come: at the top, after "," in a list, after ":" *)
| XValueOrEnd     (* just after "[" *)
| XKeyOrEnd       (* just after "{" *)
| XKey            (* after "," in an object *)
| XColon          (* after a key *)
| XCommaOrEnd     (* after an item or a member *)
| XEnd (v : pyval).  (* the document is complete *)

Definition parser := (list frame * expect)%type.

(** A complete value [v] goes where the innermost open container wants it. *)
Definition put_value (v : pyval) (st : list frame) : option parser :=
  match st with
  | [] => Some ([], XEnd v)
  | FArr items :: st' => Some (FArr (items ++ [v]) :: st', XCommaOrEnd)
  | FObj pairs (Some k) :: st' =>
      Some (FObj (dict_set (PStr k) v pairs) None :: st', XCommaOrEnd)
  | FObj _ None :: _ => None
  end.

Definition wants_value (x : expect) : bool :=
  match x with
  | XValue | XValueOrEnd => true
  | _ => false
  end.

(** A number or a constant. *)
Definition on_value (v : pyval) (p : parser) : option parser :=
  let '(st, x) := p in
  if wants_value x then put_value v st else None.

(** A string: a key where one is due, a value otherwise. *)
Definition on_string (s : pystr) (p : parser) : option parser :=
  let '(st, x) := p in
  match x with
  | XKeyOrEnd | XKey =>
      match st with
      | FObj pairs None :: st' => Some (FObj pairs (Some s) :: st', XColon)
      | _ => None
      end
  | _ => on_value (PStr s) p
  end.

(** One of the six structural characters. *)
Definition on_punct (c : N) (p : parser) : option parser :=
  let '(st, x) := p in
  if (c =? 91)%N (* [ *) then
    if wants_value x then Some (FArr [] :: st, XValueOrEnd) else None
  else if (c =? 123)%N (* { *) then
    if wants_value x then Some (FObj [] None :: st, XKeyOrEnd) else None
  else if (c =? 93)%N (* ] *) then
    match x, st with
    | XValueOrEnd, FArr items :: st' => put_value (PList items) st'
    | XCommaOrEnd, FArr items :: st' => put_value (PList items) st'
    | _, _ => None
    end
  else if (c =? 125)%N (* } *) then
    match x, st with
    | XKeyOrEnd, FObj pairs None :: st' => put_value (PDict pairs) st'
    | XCommaOrEnd, FObj pairs None :: st' => put_value (PDict pairs) st'
    | _, _ => None
    end
  else if (c =? 44)%N (* , *) then
    match x, st with
    | XCommaOrEnd, FArr _ :: _ => Some (st, XValue)
    | XCommaOrEnd, FObj _ _ :: _ => Some (st, XKey)
    | _, _ => None
    end
  else if (c =? 58)%N (* : *) then
    match x with
    | XColon => Some (st, XValue)
    | _ => None
    end
  else None.

(** ** The token being read *)

Inductive numphase :=
| PhMinus      (* "-" *)
| PhZero       (* "0" or "-0" *)
| PhInt        (* digits of the integer part *)
| PhDot        (* "." read, a digit must follow *)
| PhFrac       (* digits of the fraction *)
| PhE          (* "e" read *)
| PhESign      (* sign of the exponent read *)
| PhExp.       (* digits of the exponent *)

Record number := {
  n_neg : bool;      (* leading "-" *)
  n_digits : N;      (* the digits of integer part and fraction, as one number *)
  n_fraclen : Z;     (* how many of them belong to the fraction *)
  n_eneg : bool;     (* "-" in the exponent *)
  n_exp : N          (* the digits of the exponent *)
}.

Inductive lexer :=
| LIdle
| LStr (acc : pystr) (hi : option N)   (* in a string; [hi]: a high surrogate escape just read *)
| LEsc (acc : pystr) (hi : option N)   (* after a backslash *)
| LHex (acc : pystr) (hi : option N) (todo : nat) (v : N)  (* in a \u escape *)
| LLit (rest : pystr) (v : pyval)      (* in null, true, false, NaN, Infinity *)
| LNum (ph : numphase) (n : number).

Definition state := (lexer * parser)%type.

Definition is_ws (c : N) : bool :=
  ((c =? 32) || (c =? 9) || (c =? 10) || (c =? 13))%N.

Definition is_digit (c : N) : bool := ((48 <=? c) && (c <=? 57))%N.

Definition hex_value (c : N) : option N :=
  (if (48 <=? c) && (c <=? 57) then Some (c - 48)
   else if (97 <=? c) && (c <=? 102) then Some (c - 87)
   else if (65 <=? c) && (c <=? 70) then Some (c - 55)
   else None)%N.

(** The character a one-letter escape stands for. *)
Definition escape_char (c : N) : option N :=
  match c with
  | 34 => Some 34 | 92 => Some 92 | 47 => Some 47
  | 98 => Some 8 | 102 => Some 12 | 110 => Some 10
  | 114 => Some 13 | 116 => Some 9
  | _ => None
  end%N.

(** The string read so far, with a pending high surrogate kept as it is. *)
Definition flush (acc : pystr) (hi : option N) : pystr :=
  match hi with
  | Some h => acc ++ [h]
  | None => acc
  end.

(** A [\u] escape with value [v] is complete. *)
Definition on_unicode (acc : pystr) (hi : option N) (v : N) : lexer :=
  (match hi with
   | Some h =>
       if (56320 <=? v) && (v <=? 57343)
       then LStr (acc ++ [65536 + ((h - 55296) * 1024 + (v - 56320))]) None
       else if (55296 <=? v) && (v <=? 56319)
       then LStr (acc ++ [h]) (Some v)
       else LStr (acc ++ [h; v]) None
   | None =>
       if (55296 <=? v) && (v <=? 56319)
       then LStr acc (Some v)
       else LStr (acc ++ [v]) None
   end)%N.

Definition number_zero (neg : bool) : number :=
  {| n_neg := neg; n_digits := 0; n_fraclen := 0; n_eneg := false; n_exp := 0 |}.

Definition digit_of (c : N) : N := (c - 48)%N.

Definition push_int (n : number) (c : N) : number :=
  {| n_neg := n_neg n; n_digits := (10 * n_digits n + digit_of c)%N;
     n_fraclen := n_fraclen n; n_eneg := n_eneg n; n_exp := n_exp n |}.

Definition push_frac (n : number) (c : N) : number :=
  {| n_neg := n_neg n; n_digits := (10 * n_digits n + digit_of c)%N;
     n_fraclen := n_fraclen n + 1; n_eneg := n_eneg n; n_exp := n_exp n |}.

Definition push_exp (n : number) (c : N) : number :=
  {| n_neg := n_neg n; n_digits := n_digits n;
     n_fraclen := n_fraclen n; n_eneg := n_eneg n;
     n_exp := (10 * n_exp n + digit_of c)%N |}.

Definition set_eneg (n : number) : number :=
  {| n_neg := n_neg n; n_digits := n_digits n;
     n_fraclen := n_fraclen n; n_eneg := true; n_exp := n_exp n |}.

(** [int(lexeme)] *)
Definition int_value (n : number) : pyval :=
  PInt (if n_neg n then - Z.of_N (n_digits n) else Z.of_N (n_digits n)).

(** [float(lexeme)] *)
Definition float_value (n : number) : pyval :=
  PFloat (PyFloat.of_decimal (n_neg n) (n_digits n)
            ((if n_eneg n then - Z.of_N (n_exp n) else Z.of_N (n_exp n))
             - n_fraclen n)).

(** The value of a number that ends in phase [ph], if it may end there. *)
Definition number_value (ph : numphase) (n : number) : option pyval :=
  match ph with
  | PhZero | PhInt => Some (int_value n)
  | PhFrac | PhExp => Some (float_value n)
  | _ => None
  end.

(** ** One character *)

(** A character met between two tokens; after the document only white
    space may come. *)
Definition step_idle (c : N) (p : parser) : option state :=
  if is_ws c then Some (LIdle, p)
  else if match snd p with XEnd _ => true | _ => false end then None
  else if (c =? 34)%N then Some (LStr [] None, p)
  else if (c =? 110)%N then Some (LLit (u "ull") PNone, p)
  else if (c =? 116)%N then Some (LLit (u "rue") (PBool true), p)
  else if (c =? 102)%N then Some (LLit (u "alse") (PBool false), p)
  else if (c =? 78)%N then Some (LLit (u "aN") (PFloat FNan), p)
  else if (c =? 73)%N then Some (LLit (u "nfinity") (PFloat (FInf false)), p)
  else if (c =? 45)%N then Some (LNum PhMinus (number_zero true), p)
  else if (c =? 48)%N then Some (LNum PhZero (number_zero false), p)
  else if is_digit c then Some (LNum PhInt (push_int (number_zero false) c), p)
  else option_map (fun p' => (LIdle, p')) (on_punct c p).

(** The number ends before [c]: its value is delivered and [c] is read
    as the character after a token. *)
Definition end_number (ph : numphase) (n : number) (c : N) (p : parser)
  : option state :=
  match number_value ph n with
  | Some v =>
      match on_value v p with
      | Some p' => step_idle c p'
      | None => None
      end
  | None => None
  end.

Definition step_number (ph : numphase) (n : number) (c : N) (p : parser)
  : option state :=
  let is_e := ((c =? 101) || (c =? 69))%N in
  match ph with
  | PhMinus =>
      if (c =? 48)%N then Some (LNum PhZero n, p)
      else if is_digit c then Some (LNum PhInt (push_int n c), p)
      else if (c =? 73)%N then Some (LLit (u "nfinity") (PFloat (FInf true)), p)
      else None
  | PhZero =>
      if (c =? 46)%N then Some (LNum PhDot n, p)
      else if is_e then Some (LNum PhE n, p)
      else end_number ph n c p
  | PhInt =>
      if is_digit c then Some (LNum PhInt (push_int n c), p)
      else if (c =? 46)%N then Some (LNum PhDot n, p)
      else if is_e then Some (LNum PhE n, p)
      else end_number ph n c p
  | PhDot =>
      if is_digit c then Some (LNum PhFrac (push_frac n c), p) else None
  | PhFrac =>
      if is_digit c then Some (LNum PhFrac (push_frac n c), p)
      else if is_e then Some (LNum PhE n, p)
      else end_number ph n c p
  | PhE =>
      if is_digit c then Some (LNum PhExp (push_exp n c), p)
      else if (c =? 43)%N then Some (LNum PhESign n, p)
      else if (c =? 45)%N then Some (LNum PhESign (set_eneg n), p)
      else None
  | PhESign =>
      if is_digit c then Some (LNum PhExp (push_exp n c), p) else None
  | PhExp =>
      if is_digit c then Some (LNum PhExp (push_exp n c), p)
      else end_number ph n c p
  end.

Definition step (s : state) (c : N) : option state :=
  let '(l, p) := s in
  match l with
  | LIdle => step_idle c p
  | LStr acc hi =>
      if (c =? 34)%N then
        option_map (fun p' => (LIdle, p')) (on_string (flush acc hi) p)
      else if (c =? 92)%N then Some (LEsc acc hi, p)
      else if (c <? 32)%N then None
      else Some (LStr (flush acc hi ++ [c]) None, p)
  | LEsc acc hi =>
      if (c =? 117)%N then Some (LHex acc hi 4 0%N, p)
      else match escape_char c with
           | Some e => Some (LStr (flush acc hi ++ [e]) None, p)
           | None => None
           end
  | LHex acc hi todo v =>
      match hex_value c with
      | Some h =>
          let v' := (16 * v + h)%N in
          match todo with
          | S (S k) => Some (LHex acc hi (S k) v', p)
          | _ => Some (on_unicode acc hi v', p)
          end
      | None => None
      end
  | LLit rest v =>
      match rest with
      | [] => None
      | x :: rest' =>
          if (c =? x)%N then
            match rest' with
            | [] => option_map (fun p' => (LIdle, p')) (on_value v p)
            | _ => Some (LLit rest' v, p)
            end
          else None
      end
  | LNum ph n => step_number ph n c p
  end.

Fixpoint run (s : state) (text : pystr) : option state :=
  match text with
  | [] => Some s
  | c :: text' =>
      match step s c with
      | Some s' => run s' text'
      | None => None
      end
  end.

(** The end of the text: a number may still be open. *)
Definition finish (s : state) : option pyval :=
  let '(l, p) := s in
  let final :=
    match l with
    | LIdle => Some p
    | LNum ph n =>
        match number_value ph n with
        | Some v => on_value v p
        | None => None
        end
    | _ => None
    end in
  match final with
  | Some ([], XEnd v) => Some v
  | _ => None
  end.

Definition initial : state := (LIdle, ([], XValue)).

(** [json.loads(s)] *)
Definition loads (s : pystr) : result pyval :=
  match run initial s with
  | Some st =>
      match finish st with
      | Some v => Ok v
      | None => Raise JSONDecodeError
      end
  | None => Raise JSONDecodeError
  end.

End Json.

(* ================================================================== *)
(** * The outside world *)

Module World.

Definition bytes := list Byte.byte.

(** A page image as the rasteriser hands it over. *)
Definition image := bytes.

(** What a call into the outside world gives back.  Its exceptions are
    those of the library called: none of them is a
    [json.JSONDecodeError]. *)
Inductive external (A : Type) :=
| Answer (a : A)
| Fails (msg : pystr).
Arguments Answer {A} a.
Arguments Fails {A} msg.

Record env := {
  (** [file.save(path)]: [None] when the bytes are written. *)
  save_fails : pystr -> option pystr;
  (** When [file.save(path)] fails: [None] if the target could not be
      opened, [Some k] if it was opened for writing (created or
      emptied) and [k] bytes were written before the failure. *)
  save_wrote : pystr -> option nat;
  (** [pdf2image.convert_from_path(path)] when the file at [path] has
      this content, or does not exist. *)
  convert_from_path : pystr -> option bytes -> external (list image);
  (** [image.save(buffer, format="JPEG")] followed by [getvalue()]. *)
  image_save_jpeg : image -> external bytes;
  (** The text of the reply to the [n]-th [generate_content] call of this
      process, sent with the fixed prompt, this MIME type and these
      bytes; a failure of the call or of [response.text] is [Fails]. *)
  generate_content_text : nat -> pystr -> bytes -> external pystr;
  (** [str(e)] for the exceptions Python itself raises. *)
  exn_text : exn -> pystr
}.

(** The state a request can read and change. *)
Record world := {
  (** The files on disk, by the path they are written and read with
      (two spellings of one file are two entries: how the file system
      resolves a path is not part of the model). *)
  disk : list (pystr * bytes);
  (** The calls made to the model so far: MIME type and bytes sent. *)
  model_calls : list (pystr * bytes)
}.

Fixpoint disk_read (path : pystr) (d : list (pystr * bytes)) : option bytes :=
  match d with
  | [] => None
  | (p, c) :: d' => if PyStr.eqb p path then Some c else disk_read path d'
  end.

Fixpoint disk_write (path : pystr) (content : bytes) (d : list (pystr * bytes))
  : list (pystr * bytes) :=
  match d with
  | [] => [(path, content)]
  | (p, c) :: d' =>
      if PyStr.eqb p path then (p, content) :: d'
      else (p, c) :: disk_write path content d'
  end.

(** ** Computations *)

Definition M (A : Type) := world -> result A * world.

Definition ret {A} (a : A) : M A := fun w => (Ok a, w).

Definition raise {A} (e : exn) : M A := fun w => (Raise e, w).

Definition bind {A B} (m : M A) (k : A -> M B) : M B :=
  fun w =>
    match m w with
    | (Ok a, w') => k a w'
    | (Raise e, w') => (Raise e, w')
    end.

(** [try: body  except ...: handler(e)]: the effects of the body stay. *)
Definition try_except {A} (body : M A) (handler : exn -> M A) : M A :=
  fun w =>
    match body w with
    | (Ok a, w') => (Ok a, w')
    | (Raise e, w') => handler e w'
    end.

Definition lift {A} (r : result A) : M A := fun w => (r, w).

Definition of_external {A} (x : external A) : M A :=
  match x with
  | Answer a => ret a
  | Fails msg => raise (ExternalError msg)
  end.

End World.
Export World.

Declare Scope py_scope.
Delimit Scope py_scope with py.
Notation "x <- m ;; k" := (bind m (fun x => k))
  (at level 61, m at next level, right associativity) : py_scope.
Notation "m ;;; k" := (bind m (fun _ => k))
  (at level 61, right associativity) : py_scope.

(* ================================================================== *)
(** * The program: [app.py] *)

Module App.

Local Open Scope py_scope.

Definition UPLOAD_FOLDER : pystr := u "Uploads".

Definition newline : pystr := [10%N].

(** The two ends of the pattern [```json\n([\s\S]*?)\n```]. *)
Definition fence_open : pystr := u "```json" ++ newline.
Definition fence_close : pystr := newline ++ u "```".

(** The text before the first occurrence of [pat] in [s]. *)
Fixpoint before_first (pat s : pystr) : option pystr :=
  if startswith pat s then Some []
  else match s with
       | [] => None
       | c :: s' => option_map (cons c) (before_first pat s')
       end.

(** A match of the pattern that starts at the head of [s]: group 1. *)
Definition match_fence_here (s : pystr) : option pystr :=
  if startswith fence_open s
  then before_first fence_close (skipn (List.length fence_open) s)
  else None.

(** [re.search(r'```json\n([\s\S]*?)\n```', s)]: the first position at
    which the pattern matches; the result is [group(1)]. *)
Fixpoint re_search_fence (s : pystr) : option pystr :=
  match match_fence_here s with
  | Some g => Some g
  | None =>
      match s with
      | [] => None
      | _ :: s' => re_search_fence s'
      end
  end.

(** Lines 58-62: the string handed to [json.loads]. *)
Definition json_candidate (text : pystr) : pystr :=
  match re_search_fence text with
  | Some group1 => strip group1
  | None => strip text
  end.

Definition str_key_value_pairs : pystr := u "key_value_pairs".
Definition str_extracted_tests : pystr := u "extracted_tests".

(** [{"key_value_pairs": {}, "extracted_tests": {}}] *)
Definition empty_extraction : pyval :=
  PDict [(PStr str_key_value_pairs, PDict []);
         (PStr str_extracted_tests, PDict [])].

Definition is_json_decode_error (e : exn) : bool :=
  match e with
  | JSONDecodeError => true
  | _ => false
  end.

(** [model.generate_content([prompt, {mime_type, data}], ...)] and the
    reading of [response.text]; the call is recorded. *)
Definition generate_content (E : env) (mime_type : pystr) (data : bytes)
  : M pystr :=
  fun w =>
    let w' := {| disk := disk w;
                 model_calls := model_calls w ++ [(mime_type, data)] |} in
    of_external
      (generate_content_text E (List.length (model_calls w)) mime_type data) w'.

(** Lines 26-72.  Only [json.loads] raises a [JSONDecodeError], after
    [response.text] was read: the first handler can read it again. *)
Definition extract_medical_terms_with_gemini_image
    (E : env) (image_data : bytes) (mime_type : pystr) : M pyval :=
  try_except
    (response_text <- generate_content E mime_type image_data ;;
     let json_str := json_candidate response_text in
     extracted_data <- lift (Json.loads json_str) ;;
     ret extracted_data)
    (fun e =>
       if is_json_decode_error e then ret empty_extraction
       else ret empty_extraction).

(** Lines 75-82. *)
Definition convert_pdf_to_images (E : env) (pdf_path : pystr)
  : M (list image) :=
  try_except
    (fun w =>
       of_external (convert_from_path E pdf_path (disk_read pdf_path (disk w))) w)
    (fun _ => ret []).

(** The dict [{"page": ..., "data": ...}]. *)
Record page_result := {
  page : Z;
  data : pyval
}.

Definition mime_jpeg : pystr := u "image/jpeg".

(** Lines 95-101: the loop over [enumerate(images)], from index [idx]. *)
Fixpoint process_pages (E : env) (idx : Z) (images : list image)
    (all_results : list page_result) : M (list page_result) :=
  match images with
  | [] => ret all_results
  | image :: rest =>
      image_data <- of_external (image_save_jpeg E image) ;;
      result <- extract_medical_terms_with_gemini_image E image_data mime_jpeg ;;
      process_pages E (idx + 1) rest
        (all_results ++ [{| page := idx + 1; data := result |}])
  end.

(** Line 86. *)
Definition file_extension_of (uploaded_file_path : pystr) : pystr :=
  lower (snd (OsPath.splitext uploaded_file_path)).

(** [open(path, "rb").read()] *)
Definition read_file (path : pystr) : M bytes :=
  fun w =>
    match disk_read path (disk w) with
    | Some content => (Ok content, w)
    | None => (Raise (FileNotFoundError path), w)
    end.

Definition unsupported_message (file_extension : pystr) : pystr :=
  u "Unsupported file type: " ++ file_extension
    ++ u ". Please upload a PDF, JPEG, or PNG file.".

(** Lines 85-110. *)
Definition process_uploaded_file (E : env) (uploaded_file_path : pystr)
  : M (list page_result) :=
  let file_extension := file_extension_of uploaded_file_path in
  let all_results := [] in
  if mem file_extension [u ".pdf"] then
    images <- convert_pdf_to_images E uploaded_file_path ;;
    match images with
    | [] => ret [{| page := 1; data := empty_extraction |}]
    | _ => process_pages E 0 images all_results
    end
  else if mem file_extension [u ".jpg"; u ".jpeg"; u ".png"] then
    image_data <- read_file uploaded_file_path ;;
    result <- extract_medical_terms_with_gemini_image E image_data mime_jpeg ;;
    ret (all_results ++ [{| page := 1; data := result |}])
  else
    raise (ValueError (unsupported_message file_extension)).

(** ** The endpoint *)

Record file_storage := {
  filename : pystr;
  stream : bytes
}.

(** A request: [request.files.get('file')]. *)
Record request := {
  files_file : option file_storage
}.

(** A Flask response: status and the object given to [jsonify]. *)
Record response := {
  status : Z;
  body : pyval
}.

(** [str(e)] *)
Definition str_exn (E : env) (e : exn) : pystr :=
  match e with
  | ValueError msg => msg
  | ExternalError msg => msg
  | KeyError key => u "'" ++ key ++ u "'"
  | _ => exn_text E e
  end.

(** [jsonify(v)] *)
Definition jsonify (v : pyval) : M pyval :=
  match unorderable_dict v with
  | Some d => raise (LibraryError (UnorderableKeys d))
  | None => ret v
  end.

Definition error_body (msg : pystr) : pyval := PDict [(PStr (u "error"), PStr msg)].

Definition data_body (final_output : pyval) : pyval :=
  PDict [(PStr (u "data"), final_output)].

(** [file.save(file_path)]: the target is opened for writing, which
    empties it, and the bytes are copied; a failure leaves what was
    written until then. *)
Definition file_save (E : env) (file : file_storage) (file_path : pystr)
  : M unit :=
  fun w =>
    match save_fails E file_path with
    | Some msg =>
        (Raise (ExternalError msg),
         match save_wrote E file_path with
         | None => w
         | Some k =>
             {| disk := disk_write file_path (firstn k (stream file)) (disk w);
                model_calls := model_calls w |}
         end)
    | None =>
        (Ok tt, {| disk := disk_write file_path (stream file) (disk w);
                   model_calls := model_calls w |})
    end.

(** Line 128: the test that decides on the extraction-failure answer. *)
Definition nothing_extracted (results : list page_result) : result bool :=
  match results with
  | [] => Ok true
  | [r] =>
      rbind (subscript (data r) str_key_value_pairs) (fun kv =>
        if truthy kv then Ok false
        else rbind (subscript (data r) str_extracted_tests) (fun et =>
               Ok (negb (truthy et))))
  | _ => Ok false
  end.

(** Lines 136-139: the loop over the pages. *)
Fixpoint combine_pages (results : list page_result)
    (combined_key_value_pairs combined_extracted_tests : pydict)
  : result (pydict * pydict) :=
  match results with
  | [] => Ok (combined_key_value_pairs, combined_extracted_tests)
  | result :: rest =>
      let page_data := data result in
      rbind (subscript page_data str_key_value_pairs) (fun kv =>
      rbind (dict_update combined_key_value_pairs kv) (fun ckv =>
      rbind (subscript page_data str_extracted_tests) (fun et =>
      rbind (dict_update combined_extracted_tests et) (fun cet =>
      combine_pages rest ckv cet))))
  end.

(** Lines 131-143. *)
Definition final_output_of (results : list page_result) : result pyval :=
  match results with
  | [r] => Ok (data r)
  | _ =>
      rbind (combine_pages results [] []) (fun '(ckv, cet) =>
        Ok (PDict [(PStr str_key_value_pairs, PDict ckv);
                   (PStr str_extracted_tests, PDict cet)]))
  end.

Definition extraction_failed_message : pystr :=
  u "Failed to extract data from the file. Ensure the file contains readable medical report data.".

(** Lines 126-147, after the file is saved. *)
Definition process_and_respond (E : env) (file_path : pystr) : M response :=
  try_except
    (results <- process_uploaded_file E file_path ;;
     failed <- lift (nothing_extracted results) ;;
     if (failed : bool) then
       b <- jsonify (error_body extraction_failed_message) ;;
       ret {| status := 500; body := b |}
     else
       final_output <- lift (final_output_of results) ;;
       b <- jsonify (data_body final_output) ;;
       ret {| status := 200; body := b |})
    (fun e =>
       b <- jsonify (error_body (u "Processing failed: " ++ str_exn E e)) ;;
       ret {| status := 500; body := b |}).

(** Lines 112-147.  [None] is a view that returns nothing. *)
Definition upload_file (E : env) (req : request) : M (option response) :=
  match files_file req with
  | None =>
      b <- jsonify (error_body (u "No file part in the request")) ;;
      ret (Some {| status := 400; body := b |})
  | Some file =>
      if PyStr.eqb (filename file) [] then
        b <- jsonify (error_body (u "No file selected")) ;;
        ret (Some {| status := 400; body := b |})
      else if negb (PyStr.eqb (filename file) []) (* bool(file) *) then
        let file_path := OsPath.join UPLOAD_FOLDER (filename file) in
        file_save E file file_path ;;;
        r <- process_and_respond E file_path ;;
        ret (Some r)
      else ret None
  end.

End App.

(* ================================================================== *)
(** * Vocabulary of the properties *)

Module Vocabulary.

Import App.

(** The extensions the dispatcher accepts. *)
Definition supported_extensions : list pystr :=
  [u ".pdf"; u ".jpg"; u ".jpeg"; u ".png"].

Definition image_extensions : list pystr := [u ".jpg"; u ".jpeg"; u ".png"].

(** An ExtractionResult as the data model describes it: a mapping with
    the keys [key_value_pairs] and [extracted_tests]. *)
Definition is_extraction_result (v : pyval) : bool :=
  match v with
  | PDict d =>
      match dict_get (PStr str_key_value_pairs) d,
            dict_get (PStr str_extracted_tests) d with
      | Some _, Some _ => true
      | _, _ => false
      end
  | _ => false
  end.

(** The world after [file.save] wrote [file] at [path]. *)
Definition saved (path : pystr) (file : file_storage) (w : world) : world :=
  {| disk := disk_write path (stream file) (disk w);
     model_calls := model_calls w |}.

(** The world after one more call to the model. *)
Definition called (mime_type : pystr) (sent : bytes) (w : world) : world :=
  {| disk := disk w; model_calls := model_calls w ++ [(mime_type, sent)] |}.

(** The mapping [field] of a page, when the page has one. *)
Definition page_mapping (field : pystr) (r : page_result) : option pydict :=
  match subscript (data r) field with
  | Ok (PDict d) => Some d
  | _ => None
  end.

(** The value of [key] in the mapping [field] of a page. *)
Definition page_lookup (field key : pystr) (r : page_result) : option pyval :=
  match page_mapping field r with
  | Some d => dict_get (PStr key) d
  | None => None
  end.

(** The value of [key] in the mapping [field] of a response body
    [{"data": {field: {...}}}]. *)
Definition response_lookup (field key : pystr) (r : response) : option pyval :=
  match subscript (body r) (u "data") with
  | Ok final_output =>
      match subscript final_output field with
      | Ok (PDict d) => dict_get (PStr key) d
      | _ => None
      end
  | _ => None
  end.

(** What the parse-and-catch logic makes of a reply text: the decoded
    candidate, or the default when it does not decode. *)
Definition parse_reply (text : pystr) : pyval :=
  match Json.loads (json_candidate text) with
  | Ok v => v
  | Raise _ => empty_extraction
  end.

(** The same for a call that may have failed. *)
Definition extraction_of (reply : external pystr) : pyval :=
  match reply with
  | Answer text => parse_reply text
  | Fails _ => empty_extraction
  end.

Definition is_str (v : pyval) : bool :=
  match v with
  | PStr _ => true
  | _ => false
  end.

(** No key of [d] occurs twice. *)
Fixpoint distinct_keys (d : pydict) : bool :=
  match d with
  | [] => true
  | (k, _) :: d' =>
      match dict_get k d' with
      | None => distinct_keys d'
      | Some _ => false
      end
  end.

(** The objects [json.loads] can return: every dict in them has strings
    for keys, each once. *)
Fixpoint json_value (v : pyval) : bool :=
  match v with
  | PList l => forallb json_value l
  | PDict d =>
      forallb (fun kv => is_str (fst kv) && json_value (snd kv)) d
      && distinct_keys d
  | _ => true
  end.

(** The decoder holds JSON values only. *)
Definition frame_ok (f : Json.frame) : bool :=
  match f with
  | Json.FArr items => json_value (PList items)
  | Json.FObj pairs _ => json_value (PDict pairs)
  end.

Definition parser_ok (p : Json.parser) : bool :=
  forallb frame_ok (fst p)
  && match snd p with
     | Json.XEnd v => json_value v
     | _ => true
     end.

Definition state_ok (s : Json.state) : bool :=
  match fst s with
  | Json.LLit _ v => json_value v
  | _ => true
  end && parser_ok (snd s).

(** A page whose data is a JSON value. *)
Definition json_page (r : page_result) : Prop := json_value (data r) = true.

(** A page whose data has its two mappings. *)
Definition has_mappings (r : page_result) : Prop :=
  exists kv et,
    page_mapping str_key_value_pairs r = Some kv
    /\ page_mapping str_extracted_tests r = Some et.

(** The last value bound to [key] in a sequence of lookups. *)
Fixpoint last_bound (lookups : list (option pyval)) : option pyval :=
  match lookups with
  | [] => None
  | x :: rest =>
      match last_bound rest with
      | Some v => Some v
      | None => x
      end
  end.

(** [text] holds a fenced block: [pre], the opening fence, [inner], the
    closing fence, [post]. *)
Definition fenced (text pre inner post : pystr) : Prop :=
  text = pre ++ fence_open ++ inner ++ fence_close ++ post.

(** ** Vocabulary of the further properties *)

(** [encoded] holds the JPEG bytes of [images], page by page. *)
Definition encodes (E : env) (images : list image) (encoded : list bytes) : Prop :=
  Forall2 (fun img b => image_save_jpeg E img = Answer b) images encoded.

(** The model calls that send [encoded], in order. *)
Definition jpeg_calls (encoded : list bytes) : list (pystr * bytes) :=
  map (fun b => (mime_jpeg, b)) encoded.

(** The pages made from [encoded], numbered from [first], when the model
    was called [n] times before. *)
Fixpoint pages_from (E : env) (n : nat) (first : Z) (encoded : list bytes)
  : list page_result :=
  match encoded with
  | [] => []
  | b :: rest =>
      {| page := first;
         data := extraction_of (generate_content_text E n mime_jpeg b) |}
        :: pages_from E (S n) (first + 1) rest
  end.

(** The world after the calls in [calls]. *)
Definition after_calls (calls : list (pystr * bytes)) (w : world) : world :=
  {| disk := disk w; model_calls := model_calls w ++ calls |}.

Definition backtick : N := 96.

(** [s] holds no backtick. *)
Definition no_backtick (s : pystr) : bool :=
  forallb (fun c => negb (N.eqb c backtick)) s.

(** The world after [file.save] failed on [file] at [path]. *)
Definition after_failed_save (E : env) (path : pystr) (file : file_storage)
    (w : world) : world :=
  match save_wrote E path with
  | None => w
  | Some k =>
      {| disk := disk_write path (firstn k (stream file)) (disk w);
         model_calls := model_calls w |}
  end.

(** A body with the single key [error]. *)
Definition is_error_body (v : pyval) : Prop := exists msg, v = error_body msg.

(** A body with the single key [data]. *)
Definition is_data_body (v : pyval) : Prop := exists out, v = data_body out.

End Vocabulary.

(** ** Worlds and requests used to exercise the statements *)

Module Fixtures.

Import App.

(** A world in which every save succeeds, a PDF has no page, an image
    encodes to itself and the model always replies [reply]. *)
Definition env_replying (reply : pystr) : env :=
  {| save_fails := fun _ => None;
     save_wrote := fun _ => None;
     convert_from_path := fun _ _ => Answer [];
     image_save_jpeg := fun i => Answer i;
     generate_content_text := fun _ _ _ => Answer reply;
     exn_text := fun _ => [] |}.

(** A world in which every save succeeds, a PDF has the pages [pages],
    an image encodes to itself and the [n]-th call to the model is
    answered by [reply n]. *)
Definition env_with_pages (pages : list image) (reply : nat -> pystr) : env :=
  {| save_fails := fun _ => None;
     save_wrote := fun _ => None;
     convert_from_path := fun _ _ => Answer pages;
     image_save_jpeg := fun i => Answer i;
     generate_content_text := fun n _ _ => Answer (reply n);
     exn_text := fun _ => [] |}.

Definition fresh : world := {| disk := []; model_calls := [] |}.

Definition some_bytes : bytes := [Byte.x25; Byte.x50].

Definition upload_named (name : pystr) : request :=
  {| files_file := Some {| filename := name; stream := some_bytes |} |}.

Definition dq : pystr := [34%N].

(** A JSON string literal. *)
Definition quoted (s : string) : pystr := dq ++ u s ++ dq.

(** The reply [```json\n{"key_value_pairs": {}, "extracted_tests":
    {"hemoglobin": "13.5 g/dL"}}\n```]. *)
Definition hemoglobin_reply : pystr :=
  u "```json" ++ newline
    ++ u "{" ++ quoted "key_value_pairs" ++ u ": {}, "
    ++ quoted "extracted_tests" ++ u ": {"
    ++ quoted "hemoglobin" ++ u ": " ++ quoted "13.5 g/dL" ++ u "}}"
    ++ newline ++ u "```".

(** The reply [{"key_value_pairs": {}, "extracted_tests": {}}]. *)
Definition empty_reply : pystr :=
  u "{" ++ quoted "key_value_pairs" ++ u ": {}, "
    ++ quoted "extracted_tests" ++ u ": {}}".

(** [{"key_value_pairs": {}, "extracted_tests": {"hemoglobin": "13.5 g/dL"}}] *)
Definition hemoglobin_extraction : pyval :=
  PDict [(PStr (u "key_value_pairs"), PDict []);
         (PStr (u "extracted_tests"),
          PDict [(PStr (u "hemoglobin"), PStr (u "13.5 g/dL"))])].

(** Two pages of one report: the second corrects the hemoglobin value. *)
Definition first_page_reply : pystr :=
  u "{" ++ quoted "key_value_pairs" ++ u ": {" ++ quoted "name" ++ u ": "
    ++ quoted "A. Patient" ++ u "}, " ++ quoted "extracted_tests" ++ u ": {"
    ++ quoted "hemoglobin" ++ u ": " ++ quoted "13.5 g/dL" ++ u ", "
    ++ quoted "glucose" ++ u ": 90}}".

Definition second_page_reply : pystr :=
  u "{" ++ quoted "key_value_pairs" ++ u ": {}, "
    ++ quoted "extracted_tests" ++ u ": {"
    ++ quoted "hemoglobin" ++ u ": " ++ quoted "14.1 g/dL" ++ u "}}".

Definition first_page_data : pyval :=
  PDict [(PStr (u "key_value_pairs"), PDict [(PStr (u "name"), PStr (u "A. Patient"))]);
         (PStr (u "extracted_tests"),
          PDict [(PStr (u "hemoglobin"), PStr (u "13.5 g/dL"));
                 (PStr (u "glucose"), PInt 90)])].

Definition second_page_data : pyval :=
  PDict [(PStr (u "key_value_pairs"), PDict []);
         (PStr (u "extracted_tests"),
          PDict [(PStr (u "hemoglobin"), PStr (u "14.1 g/dL"))])].

(** A reply with tests and no [key_value_pairs]. *)
Definition tests_only_reply : pystr :=
  u "{" ++ quoted "extracted_tests" ++ u ": {"
    ++ quoted "hemoglobin" ++ u ": " ++ quoted "13.5 g/dL" ++ u "}}".

Definition tests_only_data : pyval :=
  PDict [(PStr (u "extracted_tests"),
          PDict [(PStr (u "hemoglobin"), PStr (u "13.5 g/dL"))])].

Definition first_then_tests_only (n : nat) : pystr :=
  match n with
  | O => first_page_reply
  | _ => tests_only_reply
  end.

Definition two_page_replies (n : nat) : pystr :=
  match n with
  | O => first_page_reply
  | _ => second_page_reply
  end.

(** A world in which the model is out of reach. *)
Definition env_model_down (pages : list image) : env :=
  {| save_fails := fun _ => None;
     save_wrote := fun _ => None;
     convert_from_path := fun _ _ => Answer pages;
     image_save_jpeg := fun i => Answer i;
     generate_content_text := fun _ _ _ => Fails (u "503 unavailable");
     exn_text := fun _ => [] |}.

(** A world in which the rasteriser cannot open the file. *)
Definition env_rasteriser_fails : env :=
  {| save_fails := fun _ => None;
     save_wrote := fun _ => None;
     convert_from_path := fun _ _ => Fails (u "Unable to get page count.");
     image_save_jpeg := fun i => Answer i;
     generate_content_text := fun _ _ _ => Answer empty_reply;
     exn_text := fun _ => [] |}.

(** A world in which a page without bytes cannot be encoded. *)
Definition env_encoder_fails (pages : list image) : env :=
  {| save_fails := fun _ => None;
     save_wrote := fun _ => None;
     convert_from_path := fun _ _ => Answer pages;
     image_save_jpeg := fun i => match i with
                                 | [] => Fails (u "cannot write empty image as JPEG")
                                 | _ => Answer i
                                 end;
     generate_content_text := fun _ _ _ => Answer hemoglobin_reply;
     exn_text := fun _ => [] |}.

(** A world in which the disk refuses every write. *)
Definition env_disk_full : env :=
  {| save_fails := fun _ => Some (u "[Errno 28] No space left on device");
     save_wrote := fun _ => Some 1%nat;
     convert_from_path := fun _ _ => Answer [];
     image_save_jpeg := fun i => Answer i;
     generate_content_text := fun _ _ _ => Answer empty_reply;
     exn_text := fun _ => [] |}.

End Fixtures.

(* ================================================================== *)
(** * Sanity checks of the library models *)

Example splitext_ex1 : OsPath.splitext (u "Uploads/scan.tar.GZ") = (u "Uploads/scan.tar", u ".GZ").
Proof. vm_compute. reflexivity. Qed.
Example splitext_ex2 : OsPath.splitext (u "Uploads/.bashrc") = (u "Uploads/.bashrc", []).
Proof. vm_compute. reflexivity. Qed.
Example splitext_ex3 : OsPath.splitext (u "Up.loads/x") = (u "Up.loads/x", []).
Proof. vm_compute. reflexivity. Qed.
Example splitext_ex4 : OsPath.splitext (u "Uploads/..a.b") = (u "Uploads/..a", u ".b").
Proof. vm_compute. reflexivity. Qed.
Example splitext_ex5 : OsPath.splitext (u "Uploads/...") = (u "Uploads/...", []).
Proof. vm_compute. reflexivity. Qed.
Example join_ex : OsPath.join (u "Uploads") (u "a.pdf") = u "Uploads/a.pdf" /\ OsPath.join (u "Uploads") (u "/a.pdf") = u "/a.pdf".
Proof. vm_compute. split; reflexivity. Qed.
Example strip_ex : strip (u "  a b  ") = u "a b".
Proof. vm_compute. reflexivity. Qed.

Example lower_ex : lower (u ".JPeG") = u ".jpeg".
Proof. vm_compute. reflexivity. Qed.

(** 0.1 is 3602879701896397 / 2^55; the least positive float is 2^-1074;
    halfway to it rounds to zero; past the largest float comes infinity. *)
Example float_ex :
  PyFloat.of_decimal false 1 (-1) = FFin false 3602879701896397 (-55)
  /\ PyFloat.of_decimal false 5 (-324) = FFin false 1 (-1074)
  /\ PyFloat.of_decimal false 2 (-324) = FFin false 0 0
  /\ PyFloat.of_decimal false 9007199254740993 0 = FFin false 1 53
  /\ PyFloat.of_decimal true 18 307 = FInf true.
Proof. vm_compute. repeat split; reflexivity. Qed.

Example loads_scalars :
  map Json.loads [u "0"; u "-12"; u " true "; u "null"; u "1e2"; u "-0.0"; u "NaN";
                  u "-Infinity"; Fixtures.quoted "a\u00e9\n"]
  = [Ok (PInt 0); Ok (PInt (-12)); Ok (PBool true); Ok PNone;
     Ok (PFloat (FFin false 25 2)); Ok (PFloat (FFin true 0 0)); Ok (PFloat FNan);
     Ok (PFloat (FInf true)); Ok (PStr [97; 233; 10]%N)].
Proof. vm_compute. reflexivity. Qed.

Example loads_surrogates :
  Json.loads (Fixtures.quoted "\ud83d\ude00") = Ok (PStr [128512%N])
  /\ Json.loads (Fixtures.quoted "\ud83dx") = Ok (PStr [55357; 120]%N).
Proof. vm_compute. split; reflexivity. Qed.

Example loads_containers :
  Json.loads (u "[1, [], {}, [[2]]]")
    = Ok (PList [PInt 1; PList []; PDict []; PList [PList [PInt 2]]])
  /\ Json.loads (u "{" ++ Fixtures.quoted "a" ++ u ":1," ++ Fixtures.quoted "b"
                   ++ u ":2," ++ Fixtures.quoted "a" ++ u ":3}")
     = Ok (PDict [(PStr (u "a"), PInt 3); (PStr (u "b"), PInt 2)]).
Proof. vm_compute. split; reflexivity. Qed.

Example loads_rejects :
  forallb (fun s => match Json.loads s with Raise JSONDecodeError => true | _ => false end)
    [u ""; u " "; u "[1,]"; u "{,}"; u "01"; u "1."; u "1e"; u "-"; u "[1 2]";
     u "nul"; u "nulll"; u "{1:2}"; u "[1]]"; u "1 2"; u "+1"; u ".5"; u "[";
     u "Hello there"; Fixtures.quoted "\x"; Fixtures.quoted "\u12G4";
     Fixtures.dq ++ u "abc"; Fixtures.dq ++ [9%N] ++ Fixtures.dq;
     u "{" ++ Fixtures.quoted "a" ++ u ":1,}"; u "'a'"]
  = true.
Proof. vm_compute. reflexivity. Qed.

(** [dict.update] with something else than a dict. *)
Example dict_update_ex :
  dict_update [] (PList []) = Ok []
  /\ dict_update [] (PStr []) = Ok []
  /\ dict_update [] (PList [PStr (u "ab"); PList [PInt 1; PNone]])
     = Ok [(PStr (u "a"), PStr (u "b")); (PInt 1, PNone)]
  /\ dict_update [(PInt 1, PNone)] (PList [PList [PBool true; PInt 7]])
     = Ok [(PInt 1, PInt 7)]
  /\ dict_update [] (PInt 3) = Raise (LibraryError (NotIterable (PInt 3)))
  /\ dict_update [] (PStr (u "ab")) = Raise (LibraryError (BadLength 0 1)).
Proof. vm_compute. repeat split; reflexivity. Qed.

(** Keys of different kinds cannot be sorted. *)
Example jsonify_ex :
  unorderable_dict (PDict [(PStr (u "a"), PInt 1); (PInt 1, PNone)])
    = Some [(PStr (u "a"), PInt 1); (PInt 1, PNone)]
  /\ unorderable_dict (PDict [(PNone, PInt 1)]) = None
  /\ unorderable_dict (PDict [(PInt 2, PInt 1); (PFloat FNan, PNone)]) = None.
Proof. vm_compute. repeat split; reflexivity. Qed.

(* ================================================================== *)
(** * Basic facts *)

Import App Vocabulary.

Lemma pystr_eqb_eq (a b : pystr) : PyStr.eqb a b = true <-> a = b.
Proof.
  revert b; induction a as [|x a IH]; intros [|y b]; simpl; split;
    try congruence; try reflexivity.
  - intros H. apply andb_prop in H as [Hx Hab].
    apply N.eqb_eq in Hx. apply IH in Hab. congruence.
  - intros H. injection H as -> ->.
    rewrite N.eqb_refl. simpl. now apply IH.
Qed.

Lemma pystr_eqb_refl (a : pystr) : PyStr.eqb a a = true.
Proof. now apply pystr_eqb_eq. Qed.

Lemma pystr_eqb_neq (a b : pystr) : PyStr.eqb a b = false <-> a <> b.
Proof.
  split.
  - intros H Hab. apply pystr_eqb_eq in Hab. congruence.
  - intros H. destruct (PyStr.eqb a b) eqn:Hab; [|reflexivity].
    apply pystr_eqb_eq in Hab. contradiction.
Qed.

Lemma mem_true (x : pystr) (l : list pystr) : mem x l = true <-> In x l.
Proof.
  unfold mem. rewrite existsb_exists. split.
  - intros (y & Hy & Heq). apply pystr_eqb_eq in Heq. now subst.
  - intros H. exists x. split; [assumption | apply pystr_eqb_refl].
Qed.

(** An error body has one key: [jsonify] accepts it. *)
Lemma jsonify_error_body (msg : pystr) (w : world) :
  jsonify (error_body msg) w = (Ok (error_body msg), w).
Proof. reflexivity. Qed.

(* ================================================================== *)
(** * The endpoint rejects requests without a file *)

(** C8. A request without a [file] part is answered 400 "No file part in
    the request"; a request whose file has an empty name is answered 400
    "No file selected"; in both cases the world is left as it was:
    nothing is saved and nothing is processed. *)
Theorem upload_without_file_is_rejected (E : env) (w : world) :
  upload_file E {| files_file := None |} w =
    (Ok (Some {| status := 400;
                 body := error_body (u "No file part in the request") |}), w)
  /\ forall content : bytes,
      upload_file E {| files_file := Some {| filename := []; stream := content |} |} w =
        (Ok (Some {| status := 400;
                     body := error_body (u "No file selected") |}), w).
Proof.
  split; [reflexivity | intros content; reflexivity].
Qed.

(* ================================================================== *)
(** * The model client and the response parser *)

(** Whatever the model does, the extraction returns, with exactly one
    call recorded. *)
Lemma extract_returns (E : env) (image_data : bytes) (mime_type : pystr) (w : world) :
  extract_medical_terms_with_gemini_image E image_data mime_type w =
    (Ok (extraction_of
           (generate_content_text E (List.length (model_calls w)) mime_type image_data)),
     called mime_type image_data w).
Proof.
  unfold extract_medical_terms_with_gemini_image, try_except, bind,
    generate_content, extraction_of, parse_reply, called.
  destruct (generate_content_text E _ mime_type image_data) as [text|msg]; simpl.
  - unfold lift. destruct (Json.loads (json_candidate text)) as [v|e]; simpl.
    + reflexivity.
    + destruct (is_json_decode_error e); reflexivity.
  - reflexivity.
Qed.

(** C2 (amended). The extraction never raises: it returns the value
    decoded from the JSON candidate of the reply, whatever its shape,
    and the default extraction when the candidate does not decode or
    the call to the model fails. *)
Theorem extraction_never_raises
    (E : env) (image_data : bytes) (mime_type : pystr) (w : world) :
  exists v : pyval,
    fst (extract_medical_terms_with_gemini_image E image_data mime_type w) = Ok v
    /\ match generate_content_text E (List.length (model_calls w)) mime_type image_data with
       | Answer text =>
           match Json.loads (json_candidate text) with
           | Ok decoded => v = decoded
           | Raise _ => v = empty_extraction
           end
       | Fails _ => v = empty_extraction
       end.
Proof.
  rewrite extract_returns. simpl. eexists. split; [reflexivity|].
  unfold extraction_of, parse_reply.
  destruct (generate_content_text E _ mime_type image_data) as [text|msg];
    [|reflexivity].
  destruct (Json.loads (json_candidate text)); reflexivity.
Qed.

(** C2 as stated fails: a reply that is valid JSON but not an object
    comes back as it is, and is not an ExtractionResult. *)
Lemma extraction_of_a_json_list :
  fst (extract_medical_terms_with_gemini_image
         (Fixtures.env_replying (u "[]")) Fixtures.some_bytes mime_jpeg Fixtures.fresh)
    = Ok (PList [])
  /\ is_extraction_result (PList []) = false.
Proof. split; vm_compute; reflexivity. Qed.

(* ================================================================== *)
(** * From the dispatcher's outcome to the response *)

Lemma jsonify_data_body (out : pyval) (w : world) :
  unorderable_dict out = None ->
  jsonify (data_body out) w = (Ok (data_body out), w).
Proof.
  intros H. unfold jsonify, data_body. simpl. rewrite H. reflexivity.
Qed.

Lemma respond_to_exception (E : env) (path : pystr) (w w' : world) (e : exn) :
  process_uploaded_file E path w = (Raise e, w') ->
  process_and_respond E path w =
    (Ok {| status := 500;
           body := error_body (u "Processing failed: " ++ str_exn E e) |}, w').
Proof.
  intros H. unfold process_and_respond, try_except, bind. rewrite H.
  reflexivity.
Qed.

Lemma respond_to_nothing (E : env) (path : pystr) (w w' : world)
    (results : list page_result) :
  process_uploaded_file E path w = (Ok results, w') ->
  nothing_extracted results = Ok true ->
  process_and_respond E path w =
    (Ok {| status := 500; body := error_body extraction_failed_message |}, w').
Proof.
  intros H Hn. unfold process_and_respond, try_except, bind, lift.
  rewrite H, Hn. reflexivity.
Qed.

Lemma respond_to_results (E : env) (path : pystr) (w w' : world)
    (results : list page_result) (out : pyval) :
  process_uploaded_file E path w = (Ok results, w') ->
  nothing_extracted results = Ok false ->
  final_output_of results = Ok out ->
  unorderable_dict out = None ->
  process_and_respond E path w =
    (Ok {| status := 200; body := data_body out |}, w').
Proof.
  intros H Hn Hout Hord. unfold process_and_respond, try_except, bind, lift.
  rewrite H, Hn, Hout, (jsonify_data_body out w' Hord). reflexivity.
Qed.

(** A request with a named file, once the file is saved, is answered by
    [process_and_respond]. *)
Lemma upload_file_saved (E : env) (file : file_storage) (w : world) :
  filename file <> [] ->
  save_fails E (OsPath.join UPLOAD_FOLDER (filename file)) = None ->
  upload_file E {| files_file := Some file |} w =
    let path := OsPath.join UPLOAD_FOLDER (filename file) in
    match process_and_respond E path (saved path file w) with
    | (Ok r, w') => (Ok (Some r), w')
    | (Raise e, w') => (Raise e, w')
    end.
Proof.
  intros Hname Hsave. unfold upload_file. simpl.
  apply pystr_eqb_neq in Hname. rewrite Hname. simpl.
  unfold bind, file_save. rewrite Hsave. fold (saved (OsPath.join UPLOAD_FOLDER (filename file)) file w).
  destruct (process_and_respond E _ _) as [[r|e] w']; reflexivity.
Qed.

(* ================================================================== *)
(** * The dispatcher *)

Lemma convert_pdf_to_images_total (E : env) (path : pystr) (w : world) :
  exists images, convert_pdf_to_images E path w = (Ok images, w).
Proof.
  unfold convert_pdf_to_images, try_except.
  destruct (convert_from_path E path (disk_read path (disk w))) as [images|msg];
    eexists; reflexivity.
Qed.

Lemma image_extension_is_not_pdf (ext : pystr) :
  mem ext image_extensions = true -> mem ext [u ".pdf"] = false.
Proof.
  intros H. apply mem_true in H.
  destruct (mem ext [u ".pdf"]) eqn:Hpdf; [|reflexivity].
  apply mem_true in Hpdf. simpl in H, Hpdf.
  destruct Hpdf as [<-|[]].
  destruct H as [H|[H|[H|[]]]]; discriminate H.
Qed.

Lemma unsupported_extension_split (ext : pystr) :
  mem ext supported_extensions = false ->
  mem ext [u ".pdf"] = false /\ mem ext image_extensions = false.
Proof.
  intros H. split.
  - destruct (mem ext [u ".pdf"]) eqn:Hm; [|reflexivity].
    apply mem_true in Hm. destruct Hm as [<-|[]]. discriminate H.
  - destruct (mem ext image_extensions) eqn:Hm; [|reflexivity].
    apply mem_true in Hm.
    assert (Hin : In ext supported_extensions) by (right; exact Hm).
    apply mem_true in Hin. congruence.
Qed.

(** The dispatcher on an unsupported extension raises, touching nothing. *)
Lemma process_unsupported (E : env) (path : pystr) (w : world) :
  mem (file_extension_of path) supported_extensions = false ->
  process_uploaded_file E path w =
    (Raise (ValueError (unsupported_message (file_extension_of path))), w).
Proof.
  intros H. apply unsupported_extension_split in H as [Hpdf Himg].
  unfold process_uploaded_file. fold image_extensions.
  rewrite Hpdf, Himg. reflexivity.
Qed.

(** C1 (amended). A file whose lowercased extension is none of .pdf,
    .jpg, .jpeg, .png is saved and then answered with status 500 and the
    body [{"error": "Processing failed: Unsupported file type: <ext>.
    Please upload a PDF, JPEG, or PNG file."}]: the dispatcher's error
    reaches the client through the catch-all handler. *)
Theorem unsupported_extension_is_a_processing_failure
    (E : env) (file : file_storage) (w : world) :
  let path := OsPath.join UPLOAD_FOLDER (filename file) in
  let ext := file_extension_of path in
  filename file <> [] ->
  save_fails E path = None ->
  mem ext supported_extensions = false ->
  upload_file E {| files_file := Some file |} w =
    (Ok (Some {| status := 500;
                 body := error_body (u "Processing failed: "
                                       ++ unsupported_message ext) |}),
     saved path file w).
Proof.
  intros path ext Hname Hsave Hext.
  rewrite (upload_file_saved E file w Hname Hsave). cbv zeta. fold path.
  rewrite (respond_to_exception E path _ _ _
             (process_unsupported E path (saved path file w) Hext)).
  reflexivity.
Qed.

Lemma unsupported_extension_is_a_processing_failure_witness :
  upload_file (Fixtures.env_replying []) (Fixtures.upload_named (u "scan.GIF"))
    Fixtures.fresh =
    (Ok (Some {| status := 500;
                 body := error_body (u "Processing failed: Unsupported file type: .gif. Please upload a PDF, JPEG, or PNG file.") |}),
     {| disk := [(u "Uploads/scan.GIF", Fixtures.some_bytes)]; model_calls := [] |}).
Proof.
  apply (unsupported_extension_is_a_processing_failure
           (Fixtures.env_replying [])
           {| filename := u "scan.GIF"; stream := Fixtures.some_bytes |}
           Fixtures.fresh).
  - discriminate.
  - reflexivity.
  - vm_compute. reflexivity.
Defined.

(** C1 as stated fails: a .gif upload is answered 500, not 400. *)
Lemma gif_upload_is_not_answered_400 :
  mem (file_extension_of (OsPath.join UPLOAD_FOLDER (u "scan.gif")))
      supported_extensions = false
  /\ fst (upload_file (Fixtures.env_replying []) (Fixtures.upload_named (u "scan.gif"))
            Fixtures.fresh)
     = Ok (Some {| status := 500;
                   body := error_body (u "Processing failed: Unsupported file type: .gif. Please upload a PDF, JPEG, or PNG file.") |})
  /\ fst (upload_file (Fixtures.env_replying []) (Fixtures.upload_named (u "scan.gif"))
            Fixtures.fresh)
     <> Ok (Some {| status := 400;
                    body := error_body (unsupported_message (u ".gif")) |}).
Proof.
  split; [vm_compute; reflexivity|].
  split; [vm_compute; reflexivity|].
  vm_compute. discriminate.
Qed.

(** The dispatcher on a PDF without pages. *)
Lemma process_pdf_without_pages (E : env) (path : pystr) (w : world) :
  file_extension_of path = u ".pdf" ->
  fst (convert_pdf_to_images E path w) = Ok [] ->
  process_uploaded_file E path w =
    (Ok [{| page := 1; data := empty_extraction |}], w).
Proof.
  intros Hext Hnone. unfold process_uploaded_file. rewrite Hext.
  change (mem (u ".pdf") [u ".pdf"]) with true. cbv iota.
  unfold bind.
  destruct (convert_pdf_to_images_total E path w) as [images Himages].
  rewrite Himages in *. simpl in Hnone. injection Hnone as ->.
  reflexivity.
Qed.

(** C4. For a .pdf upload whose rasterisation yields no image, the
    dispatcher returns the single page [{page: 1, data: {key_value_pairs:
    {}, extracted_tests: {}}}] without raising, and the endpoint answers
    500 with the extraction-failure message. *)
Theorem pdf_without_pages_is_an_extraction_failure
    (E : env) (file : file_storage) (w : world) :
  let path := OsPath.join UPLOAD_FOLDER (filename file) in
  filename file <> [] ->
  save_fails E path = None ->
  file_extension_of path = u ".pdf" ->
  fst (convert_pdf_to_images E path (saved path file w)) = Ok [] ->
  process_uploaded_file E path (saved path file w) =
    (Ok [{| page := 1; data := empty_extraction |}], saved path file w)
  /\ upload_file E {| files_file := Some file |} w =
       (Ok (Some {| status := 500;
                    body := error_body (u "Failed to extract data from the file. Ensure the file contains readable medical report data.") |}),
        saved path file w).
Proof.
  intros path Hname Hsave Hext Hnone.
  pose proof (process_pdf_without_pages E path _ Hext Hnone) as Hproc.
  split; [exact Hproc|].
  rewrite (upload_file_saved E file w Hname Hsave). cbv zeta. fold path.
  rewrite (respond_to_nothing E path _ _ _ Hproc); reflexivity.
Qed.

Lemma pdf_without_pages_is_an_extraction_failure_witness :
  process_uploaded_file (Fixtures.env_replying []) (u "Uploads/report.PDF")
    {| disk := [(u "Uploads/report.PDF", Fixtures.some_bytes)]; model_calls := [] |} =
    (Ok [{| page := 1; data := empty_extraction |}],
     {| disk := [(u "Uploads/report.PDF", Fixtures.some_bytes)]; model_calls := [] |})
  /\ upload_file (Fixtures.env_replying []) (Fixtures.upload_named (u "report.PDF"))
       Fixtures.fresh =
       (Ok (Some {| status := 500;
                    body := error_body (u "Failed to extract data from the file. Ensure the file contains readable medical report data.") |}),
        {| disk := [(u "Uploads/report.PDF", Fixtures.some_bytes)]; model_calls := [] |}).
Proof.
  apply (pdf_without_pages_is_an_extraction_failure
           (Fixtures.env_replying [])
           {| filename := u "report.PDF"; stream := Fixtures.some_bytes |}
           Fixtures.fresh).
  - discriminate.
  - reflexivity.
  - vm_compute. reflexivity.
  - vm_compute. reflexivity.
Defined.

(** C7. For a path whose lowercased extension is .jpg, .jpeg or .png,
    the dispatcher reads the bytes of the file as they are, calls the
    model exactly once, with them and the MIME type image/jpeg whatever
    the extension, and returns exactly one page, numbered 1, holding
    what the extraction made of the reply. *)
Theorem image_is_sent_once_as_jpeg
    (E : env) (path : pystr) (content : bytes) (w : world) :
  mem (file_extension_of path) image_extensions = true ->
  disk_read path (disk w) = Some content ->
  process_uploaded_file E path w =
    (Ok [{| page := 1;
            data := extraction_of
                      (generate_content_text E (List.length (model_calls w))
                         (u "image/jpeg") content) |}],
     {| disk := disk w;
        model_calls := model_calls w ++ [(u "image/jpeg", content)] |}).
Proof.
  intros Hext Hread. unfold process_uploaded_file. fold image_extensions.
  rewrite (image_extension_is_not_pdf _ Hext), Hext.
  unfold bind, read_file. rewrite Hread.
  rewrite extract_returns. reflexivity.
Qed.

Lemma image_is_sent_once_as_jpeg_witness :
  process_uploaded_file (Fixtures.env_replying (u "{}")) (u "Uploads/scan.PNG")
    {| disk := [(u "Uploads/scan.PNG", Fixtures.some_bytes)]; model_calls := [] |} =
    (Ok [{| page := 1; data := PDict [] |}],
     {| disk := [(u "Uploads/scan.PNG", Fixtures.some_bytes)];
        model_calls := [(u "image/jpeg", Fixtures.some_bytes)] |}).
Proof.
  apply (image_is_sent_once_as_jpeg (Fixtures.env_replying (u "{}"))
           (u "Uploads/scan.PNG") Fixtures.some_bytes
           {| disk := [(u "Uploads/scan.PNG", Fixtures.some_bytes)]; model_calls := [] |}).
  - vm_compute. reflexivity.
  - vm_compute. reflexivity.
Defined.

(* ================================================================== *)
(** * The JSON candidate *)

Lemma startswith_spec (p s : pystr) :
  startswith p s = true <-> exists t, s = p ++ t.
Proof.
  revert s; induction p as [|x p IH]; intros s; simpl.
  - split; [intros _; now exists s | reflexivity].
  - destruct s as [|y s].
    + split; [discriminate | intros [t Ht]; discriminate].
    + rewrite andb_true_iff, N.eqb_eq, IH. split.
      * intros [-> [t ->]]. now exists t.
      * intros [t Ht]. injection Ht as -> ->. split; [reflexivity | now exists t].
Qed.

Lemma before_first_unfold (pat s : pystr) :
  before_first pat s =
    if startswith pat s then Some []
    else match s with
         | [] => None
         | c :: s' => option_map (cons c) (before_first pat s')
         end.
Proof. destruct s; reflexivity. Qed.

(** [before_first] finds the first occurrence. *)
Lemma before_first_some (pat s b : pystr) :
  before_first pat s = Some b ->
  (exists post, s = b ++ pat ++ post)
  /\ forall b' post', s = b' ++ pat ++ post' -> (List.length b <= List.length b')%nat.
Proof.
  revert b; induction s as [|c s IH]; intros b; rewrite before_first_unfold.
  - destruct (startswith pat []) eqn:Hs; [|discriminate].
    intros [= <-]. apply startswith_spec in Hs. split; [exact Hs|].
    intros; simpl; lia.
  - destruct (startswith pat (c :: s)) eqn:Hs.
    + intros [= <-]. apply startswith_spec in Hs. split; [exact Hs|].
      intros; simpl; lia.
    + destruct (before_first pat s) as [b0|] eqn:Hb; [|discriminate].
      simpl. intros [= <-]. destruct (IH b0 eq_refl) as [[post Hpost] Hmin].
      split.
      * exists post. simpl. now rewrite Hpost.
      * intros [|c' b'] post' Heq.
        -- simpl in Heq.
           assert (startswith pat (c :: s) = true)
             by (apply startswith_spec; now exists post').
           congruence.
        -- simpl in Heq. injection Heq as -> Heq.
           simpl. apply Hmin in Heq. lia.
Qed.

Lemma before_first_none (pat s : pystr) :
  before_first pat s = None -> forall b post, s <> b ++ pat ++ post.
Proof.
  induction s as [|c s IH]; rewrite before_first_unfold.
  - destruct (startswith pat []) eqn:Hs; [discriminate|].
    intros _ b post Heq. destruct b as [|x b]; [|discriminate].
    assert (startswith pat [] = true) by (apply startswith_spec; now exists post).
    congruence.
  - destruct (startswith pat (c :: s)) eqn:Hs; [discriminate|].
    destruct (before_first pat s) eqn:Hb; [discriminate|].
    intros _ [|x b] post Heq.
    + assert (startswith pat (c :: s) = true)
        by (apply startswith_spec; now exists post).
      congruence.
    + simpl in Heq. injection Heq as -> Heq. now apply (IH eq_refl b post).
Qed.

Lemma skipn_app_length (a b : pystr) : skipn (List.length a) (a ++ b) = b.
Proof. induction a; simpl; auto. Qed.

Lemma match_fence_here_some (s g : pystr) :
  match_fence_here s = Some g ->
  (exists post, fenced s [] g post)
  /\ forall inner post, fenced s [] inner post ->
       (List.length g <= List.length inner)%nat.
Proof.
  unfold match_fence_here, fenced.
  destruct (startswith fence_open s) eqn:Hs; [|discriminate].
  apply startswith_spec in Hs as [t ->]. rewrite skipn_app_length.
  intros Hb. apply before_first_some in Hb as [[post ->] Hmin]. split.
  - now exists post.
  - intros inner post' Heq. cbn [app] in Heq. apply app_inv_head in Heq.
    now apply (Hmin inner post').
Qed.

Lemma match_fence_here_none (s : pystr) :
  match_fence_here s = None -> forall inner post, ~ fenced s [] inner post.
Proof.
  unfold match_fence_here, fenced. intros H inner post Heq. cbn [app] in Heq.
  assert (Hs : startswith fence_open s = true)
    by (apply startswith_spec; eexists; exact Heq).
  rewrite Hs in H. rewrite Heq, skipn_app_length in H.
  now apply (before_first_none _ _ H inner post).
Qed.

Lemma re_search_fence_unfold (s : pystr) :
  re_search_fence s =
    match match_fence_here s with
    | Some g => Some g
    | None => match s with [] => None | _ :: s' => re_search_fence s' end
    end.
Proof. destruct s; reflexivity. Qed.

(** The search returns the interior of the leftmost fenced block, cut at
    the first closing fence. *)
Lemma re_search_fence_some (s g : pystr) :
  re_search_fence s = Some g ->
  exists pre post,
    fenced s pre g post
    /\ (forall pre' inner' post', fenced s pre' inner' post' ->
          (List.length pre <= List.length pre')%nat)
    /\ (forall inner' post', fenced s pre inner' post' ->
          (List.length g <= List.length inner')%nat).
Proof.
  revert g; induction s as [|c s IH]; intros g; rewrite re_search_fence_unfold.
  - destruct (match_fence_here []) as [g0|] eqn:Hm; [|discriminate].
    intros [= <-]. apply match_fence_here_some in Hm as [[post Hpost] Hmin].
    exists [], post. repeat split; [exact Hpost | intros; simpl; lia | exact Hmin].
  - destruct (match_fence_here (c :: s)) as [g0|] eqn:Hm.
    + intros [= <-]. apply match_fence_here_some in Hm as [[post Hpost] Hmin].
      exists [], post. repeat split; [exact Hpost | intros; simpl; lia | exact Hmin].
    + intros Hs. destruct (IH g Hs) as (pre & post & Hf & Hleft & Hshort).
      exists (c :: pre), post. unfold fenced in *. repeat split.
      * cbn [app]. now rewrite <- Hf.
      * intros [|c' pre'] inner' post' Heq.
        -- exfalso. exact (match_fence_here_none _ Hm inner' post' Heq).
        -- cbn [app] in Heq. injection Heq as -> Heq. simpl.
           apply Hleft in Heq. lia.
      * intros inner' post' Heq. cbn [app] in Heq. injection Heq as Heq.
        now apply (Hshort inner' post').
Qed.

Lemma re_search_fence_none (s : pystr) :
  re_search_fence s = None -> forall pre inner post, ~ fenced s pre inner post.
Proof.
  induction s as [|c s IH]; rewrite re_search_fence_unfold.
  - destruct (match_fence_here []) eqn:Hm; [discriminate|].
    intros _ [|x pre] inner post Heq; [|discriminate Heq].
    exact (match_fence_here_none _ Hm inner post Heq).
  - destruct (match_fence_here (c :: s)) eqn:Hm; [discriminate|].
    intros Hs [|x pre] inner post Heq.
    + exact (match_fence_here_none _ Hm inner post Heq).
    + unfold fenced in Heq. cbn [app] in Heq. injection Heq as -> Heq.
      exact (IH Hs pre inner post Heq).
Qed.

(** C5. When the reply holds a fenced block [```json\n ... \n```], the
    candidate is the stripped interior of the leftmost block, ended by
    the first closing fence (non-greedy); otherwise it is the whole
    reply, stripped.  In particular the reply
    [```json\n{"key_value_pairs": {}, "extracted_tests": {"hemoglobin":
    "13.5 g/dL"}}\n```] is extracted as exactly that object. *)
Theorem json_candidate_selection :
  (forall text : pystr,
     (exists pre inner post, fenced text pre inner post) ->
     exists pre inner post,
       fenced text pre inner post
       /\ (forall pre' inner' post', fenced text pre' inner' post' ->
             (List.length pre <= List.length pre')%nat)
       /\ (forall inner' post', fenced text pre inner' post' ->
             (List.length inner <= List.length inner')%nat)
       /\ json_candidate text = strip inner)
  /\ (forall text : pystr,
        ~ (exists pre inner post, fenced text pre inner post) ->
        json_candidate text = strip text)
  /\ (forall (E : env) (image_data : bytes) (mime_type : pystr) (w : world),
        generate_content_text E (List.length (model_calls w)) mime_type image_data
          = Answer Fixtures.hemoglobin_reply ->
        fst (extract_medical_terms_with_gemini_image E image_data mime_type w)
          = Ok Fixtures.hemoglobin_extraction).
Proof.
  split; [|split].
  - intros text (pre0 & inner0 & post0 & H0). unfold json_candidate.
    destruct (re_search_fence text) as [g|] eqn:Hs.
    + destruct (re_search_fence_some _ _ Hs) as (pre & post & Hf & Hleft & Hshort).
      exists pre, g, post. auto.
    + exfalso. exact (re_search_fence_none _ Hs pre0 inner0 post0 H0).
  - intros text Hnone. unfold json_candidate.
    destruct (re_search_fence text) as [g|] eqn:Hs; [|reflexivity].
    exfalso. apply Hnone.
    destruct (re_search_fence_some _ _ Hs) as (pre & post & Hf & _).
    now exists pre, g, post.
  - intros E image_data mime_type w Hreply.
    rewrite extract_returns, Hreply. vm_compute. reflexivity.
Qed.

Lemma json_candidate_selection_witness :
  (exists pre inner post,
     fenced (u "Here: " ++ Fixtures.hemoglobin_reply ++ u " done") pre inner post
     /\ (forall pre' inner' post',
           fenced (u "Here: " ++ Fixtures.hemoglobin_reply ++ u " done") pre' inner' post' ->
           (List.length pre <= List.length pre')%nat)
     /\ (forall inner' post',
           fenced (u "Here: " ++ Fixtures.hemoglobin_reply ++ u " done") pre inner' post' ->
           (List.length inner <= List.length inner')%nat)
     /\ json_candidate (u "Here: " ++ Fixtures.hemoglobin_reply ++ u " done")
        = strip inner)
  /\ json_candidate (u " plain prose ") = strip (u " plain prose ")
  /\ fst (extract_medical_terms_with_gemini_image
            (Fixtures.env_replying Fixtures.hemoglobin_reply)
            Fixtures.some_bytes mime_jpeg Fixtures.fresh)
     = Ok Fixtures.hemoglobin_extraction.
Proof.
  destruct json_candidate_selection as (Hfenced & Hplain & Hexample).
  split; [|split].
  - apply Hfenced.
    exists (u "Here: "),
      (u "{" ++ Fixtures.quoted "key_value_pairs" ++ u ": {}, "
         ++ Fixtures.quoted "extracted_tests" ++ u ": {"
         ++ Fixtures.quoted "hemoglobin" ++ u ": "
         ++ Fixtures.quoted "13.5 g/dL" ++ u "}}"),
      (u " done").
    vm_compute. reflexivity.
  - apply Hplain. intros (pre & inner & post & H).
    assert (Hs : re_search_fence (u " plain prose ") = None) by (vm_compute; reflexivity).
    exact (re_search_fence_none _ Hs pre inner post H).
  - apply Hexample. reflexivity.
Defined.

(* ================================================================== *)
(** * Several pages *)

Lemma nothing_extracted_of_several (r1 r2 : page_result) (rest : list page_result) :
  nothing_extracted (r1 :: r2 :: rest) = Ok false.
Proof. reflexivity. Qed.

Lemma page_mapping_subscript (field : pystr) (r : page_result) (d : pydict) :
  page_mapping field r = Some d -> subscript (data r) field = Ok (PDict d).
Proof.
  unfold page_mapping. destruct (subscript (data r) field) as [[]|]; congruence.
Qed.

Lemma combine_empty_pages (results : list page_result) (ckv cet : pydict) :
  Forall (fun r => page_mapping str_key_value_pairs r = Some []
                   /\ page_mapping str_extracted_tests r = Some []) results ->
  combine_pages results ckv cet = Ok (ckv, cet).
Proof.
  intros H. revert ckv cet. induction H as [|r results [Hkv Het] _ IH];
    intros ckv cet; [reflexivity|].
  cbn [combine_pages].
  rewrite (page_mapping_subscript _ _ _ Hkv), (page_mapping_subscript _ _ _ Het).
  simpl. apply IH.
Qed.

(** C9. When the dispatcher returns two or more pages whose mappings
    are all empty, the endpoint does not answer with the
    extraction-failure 500: it answers 200 with [{"data":
    {"key_value_pairs": {}, "extracted_tests": {}}}]. *)
Theorem empty_pages_are_answered_200
    (E : env) (file : file_storage) (w w' : world) (results : list page_result) :
  let path := OsPath.join UPLOAD_FOLDER (filename file) in
  filename file <> [] ->
  save_fails E path = None ->
  process_uploaded_file E path (saved path file w) = (Ok results, w') ->
  (2 <= List.length results)%nat ->
  Forall (fun r => page_mapping str_key_value_pairs r = Some []
                   /\ page_mapping str_extracted_tests r = Some []) results ->
  upload_file E {| files_file := Some file |} w =
    (Ok (Some {| status := 200;
                 body := PDict [(PStr (u "data"),
                                 PDict [(PStr (u "key_value_pairs"), PDict []);
                                        (PStr (u "extracted_tests"), PDict [])])] |}),
     w').
Proof.
  intros path Hname Hsave Hproc Hlen Hempty.
  rewrite (upload_file_saved E file w Hname Hsave). cbv zeta. fold path.
  destruct results as [|r1 [|r2 rest]]; simpl in Hlen; try lia.
  rewrite (respond_to_results E path _ _ _ empty_extraction Hproc).
  - reflexivity.
  - reflexivity.
  - unfold final_output_of. rewrite (combine_empty_pages _ [] [] Hempty).
    reflexivity.
  - reflexivity.
Qed.

Lemma empty_pages_are_answered_200_witness :
  upload_file
    (Fixtures.env_with_pages [Fixtures.some_bytes; []] (fun _ => Fixtures.empty_reply))
    (Fixtures.upload_named (u "report.pdf")) Fixtures.fresh =
    (Ok (Some {| status := 200;
                 body := PDict [(PStr (u "data"),
                                 PDict [(PStr (u "key_value_pairs"), PDict []);
                                        (PStr (u "extracted_tests"), PDict [])])] |}),
     {| disk := [(u "Uploads/report.pdf", Fixtures.some_bytes)];
        model_calls := [(u "image/jpeg", Fixtures.some_bytes); (u "image/jpeg", [])] |}).
Proof.
  apply (empty_pages_are_answered_200
           (Fixtures.env_with_pages [Fixtures.some_bytes; []] (fun _ => Fixtures.empty_reply))
           {| filename := u "report.pdf"; stream := Fixtures.some_bytes |}
           Fixtures.fresh _
           [{| page := 1; data := empty_extraction |};
            {| page := 2; data := empty_extraction |}]).
  - discriminate.
  - reflexivity.
  - vm_compute. reflexivity.
  - simpl. lia.
  - repeat constructor.
Defined.

(* ================================================================== *)
(** * The disk *)

Lemma disk_read_write_same (path : pystr) (content : bytes) (d : list (pystr * bytes)) :
  disk_read path (disk_write path content d) = Some content.
Proof.
  induction d as [|[p c] d IH]; simpl.
  - now rewrite pystr_eqb_refl.
  - destruct (PyStr.eqb p path) eqn:Hp; simpl; rewrite Hp; auto.
Qed.

Lemma disk_read_write_other (path other : pystr) (content : bytes)
    (d : list (pystr * bytes)) :
  other <> path ->
  disk_read other (disk_write path content d) = disk_read other d.
Proof.
  intros Hneq. induction d as [|[p c] d IH]; simpl.
  - destruct (PyStr.eqb path other) eqn:Hp; [|reflexivity].
    apply pystr_eqb_eq in Hp. congruence.
  - destruct (PyStr.eqb p path) eqn:Hp; simpl.
    + apply pystr_eqb_eq in Hp. subst p.
      destruct (PyStr.eqb path other) eqn:Ho; [|reflexivity].
      apply pystr_eqb_eq in Ho. congruence.
    + now rewrite IH.
Qed.

(** Case analysis on every scrutinee of the goal, innermost first. *)
Ltac split_matches :=
  repeat match goal with
         | |- context [match ?x with _ => _ end] =>
             lazymatch x with
             | context [match _ with _ => _ end] => fail
             | _ => destruct x eqn:?; simpl
             end
         end.

Lemma process_pages_keeps_disk (E : env) (images : list image) (idx : Z)
    (acc : list page_result) (w : world) :
  disk (snd (process_pages E idx images acc w)) = disk w.
Proof.
  revert idx acc w. induction images as [|image rest IH]; intros idx acc w;
    [reflexivity|].
  cbn [process_pages]. unfold bind at 1.
  destruct (image_save_jpeg E image) as [image_data|msg]; simpl; [|reflexivity].
  unfold bind at 1. rewrite extract_returns. rewrite IH. reflexivity.
Qed.

Lemma process_uploaded_file_keeps_disk (E : env) (path : pystr) (w : world) :
  disk (snd (process_uploaded_file E path w)) = disk w.
Proof.
  unfold process_uploaded_file.
  destruct (mem (file_extension_of path) [u ".pdf"]).
  - unfold bind. destruct (convert_pdf_to_images_total E path w) as [images ->].
    destruct images as [|image rest]; [reflexivity|].
    apply process_pages_keeps_disk.
  - destruct (mem (file_extension_of path) _); [|reflexivity].
    unfold bind, read_file. destruct (disk_read path (disk w)); [|reflexivity].
    rewrite extract_returns. reflexivity.
Qed.

Lemma process_and_respond_keeps_disk (E : env) (path : pystr) (w : world) :
  disk (snd (process_and_respond E path w)) = disk w.
Proof.
  rewrite <- (process_uploaded_file_keeps_disk E path w).
  unfold process_and_respond, try_except, bind, lift, jsonify, ret, raise.
  destruct (process_uploaded_file E path w) as [[results|e] w1]; simpl.
  - split_matches; reflexivity.
  - reflexivity.
Qed.

(** A request changes the disk by at most the file it saves. *)
Lemma upload_file_disk (E : env) (req : request) (w : world) :
  disk (snd (upload_file E req w)) = disk w
  \/ exists path content,
       disk (snd (upload_file E req w)) = disk_write path content (disk w).
Proof.
  destruct req as [[file|]]; [|left; reflexivity].
  destruct (PyStr.eqb (filename file) []) eqn:Hname.
  - left. unfold upload_file. simpl. rewrite Hname. reflexivity.
  - apply pystr_eqb_neq in Hname.
    destruct (save_fails E (OsPath.join UPLOAD_FOLDER (filename file))) as [msg|] eqn:Hsave.
    + unfold upload_file. simpl.
      apply pystr_eqb_neq in Hname. rewrite Hname. simpl.
      unfold bind, file_save. rewrite Hsave.
      destruct (save_wrote E (OsPath.join UPLOAD_FOLDER (filename file))) as [k|].
      * right. eexists. eexists. reflexivity.
      * left. reflexivity.
    + right. exists (OsPath.join UPLOAD_FOLDER (filename file)), (stream file).
      rewrite (upload_file_saved E file w Hname Hsave). cbv zeta.
      pose proof (process_and_respond_keeps_disk E
                    (OsPath.join UPLOAD_FOLDER (filename file))
                    (saved (OsPath.join UPLOAD_FOLDER (filename file)) file w)) as H.
      destruct (process_and_respond E _ _) as [[r|e] w1]; exact H.
Qed.

(** [file.save] is outside the [try]: its failure escapes the view. *)
Lemma failed_save_escapes (E : env) (file : file_storage) (w : world) (msg : pystr) :
  filename file <> [] ->
  save_fails E (OsPath.join UPLOAD_FOLDER (filename file)) = Some msg ->
  upload_file E {| files_file := Some file |} w =
    (Raise (ExternalError msg),
     after_failed_save E (OsPath.join UPLOAD_FOLDER (filename file)) file w).
Proof.
  intros Hname Hsave. unfold upload_file. simpl.
  apply pystr_eqb_neq in Hname. rewrite Hname. simpl.
  unfold bind, file_save, after_failed_save. rewrite Hsave.
  destruct (save_wrote E _); reflexivity.
Qed.

(** C10 (amended). For a request with a named file whose save
    succeeds, the bytes are written at [os.path.join("Uploads",
    filename)] before the extension is looked at: that is
    [Uploads/<filename>], or the filename itself when it starts with
    "/".  Whatever the answer, also for an unsupported extension, the
    disk after the request is the disk before with that file written;
    and no request removes a file. *)
Theorem upload_is_persisted (E : env) :
  (forall (file : file_storage) (w : world),
     let path := OsPath.join UPLOAD_FOLDER (filename file) in
     filename file <> [] ->
     save_fails E path = None ->
     path = (if startswith (u "/") (filename file) then filename file
             else u "Uploads/" ++ filename file)
     /\ upload_file E {| files_file := Some file |} w =
          (match process_and_respond E path (saved path file w) with
           | (Ok r, w') => (Ok (Some r), w')
           | (Raise e, w') => (Raise e, w')
           end)
     /\ disk (snd (upload_file E {| files_file := Some file |} w)) =
          disk_write path (stream file) (disk w)
     /\ disk_read path (disk (snd (upload_file E {| files_file := Some file |} w))) =
          Some (stream file)
     /\ (mem (file_extension_of path) supported_extensions = false ->
         snd (upload_file E {| files_file := Some file |} w) = saved path file w))
  /\ (forall (req : request) (w : world) (p : pystr),
        disk_read p (disk w) <> None ->
        disk_read p (disk (snd (upload_file E req w))) <> None).
Proof.
  split.
  - intros file w path Hname Hsave.
    pose proof (upload_file_saved E file w Hname Hsave) as Hup.
    cbv zeta in Hup. fold path in Hup.
    assert (Hdisk : disk (snd (upload_file E {| files_file := Some file |} w)) =
                    disk_write path (stream file) (disk w)).
    { rewrite Hup.
      pose proof (process_and_respond_keeps_disk E path (saved path file w)) as H.
      destruct (process_and_respond E path _) as [[r|e] w1]; exact H. }
    repeat split.
    + exact Hup.
    + exact Hdisk.
    + rewrite Hdisk. apply disk_read_write_same.
    + intros Hext. rewrite Hup.
      now rewrite (respond_to_exception E path _ _ _
                     (process_unsupported E path (saved path file w) Hext)).
  - intros req w p Hp.
    destruct (upload_file_disk E req w) as [->|(path & content & ->)];
      [exact Hp|].
    destruct (PyStr.eqb p path) eqn:Heq.
    + apply pystr_eqb_eq in Heq. subst p. rewrite disk_read_write_same. discriminate.
    + apply pystr_eqb_neq in Heq. now rewrite (disk_read_write_other _ _ _ _ Heq).
Qed.

Lemma upload_is_persisted_witness :
  disk (snd (upload_file (Fixtures.env_replying [])
               (Fixtures.upload_named (u "notes.gif")) Fixtures.fresh))
    = [(u "Uploads/notes.gif", Fixtures.some_bytes)]
  /\ snd (upload_file (Fixtures.env_replying [])
            (Fixtures.upload_named (u "notes.gif")) Fixtures.fresh)
     = {| disk := [(u "Uploads/notes.gif", Fixtures.some_bytes)]; model_calls := [] |}.
Proof.
  destruct (upload_is_persisted (Fixtures.env_replying [])) as [Hsaved _].
  destruct (Hsaved {| filename := u "notes.gif"; stream := Fixtures.some_bytes |}
              Fixtures.fresh) as (_ & _ & Hdisk & _ & Hgif).
  - discriminate.
  - reflexivity.
  - split.
    + exact Hdisk.
    + apply Hgif. vm_compute. reflexivity.
Defined.

(** C10 as stated fails: a file named with an absolute path is written
    at that path, outside the Uploads directory. *)
Lemma absolute_filename_leaves_uploads :
  disk (snd (upload_file (Fixtures.env_replying [])
               (Fixtures.upload_named (u "/tmp/x.gif")) Fixtures.fresh))
    = [(u "/tmp/x.gif", Fixtures.some_bytes)]
  /\ startswith (u "Uploads/") (u "/tmp/x.gif") = false
  /\ disk_read (u "Uploads//tmp/x.gif")
       (disk (snd (upload_file (Fixtures.env_replying [])
                     (Fixtures.upload_named (u "/tmp/x.gif")) Fixtures.fresh)))
     = None.
Proof. repeat split; vm_compute; reflexivity. Qed.

(* ================================================================== *)
(** * Keys and dicts *)

Lemma pyfloat_eqb_eq (a b : pyfloat) : PyFloat.eqb a b = true <-> a = b.
Proof.
  destruct a as [|s|s m e], b as [|t|t n f]; simpl; split;
    try congruence; try reflexivity.
  - intros H. apply Bool.eqb_prop in H. congruence.
  - intros [= ->]. apply Bool.eqb_reflx.
  - intros H. apply andb_prop in H as [H He]. apply andb_prop in H as [Hs Hm].
    apply Bool.eqb_prop in Hs. apply N.eqb_eq in Hm. apply Z.eqb_eq in He.
    congruence.
  - intros [= -> -> ->].
    rewrite Bool.eqb_reflx, N.eqb_refl, Z.eqb_refl. reflexivity.
Qed.

Lemma pykey_eqb_eq (a b : pykey) : pykey_eqb a b = true <-> a = b.
Proof.
  destruct a, b; simpl; split; try congruence; try reflexivity.
  - intros H. apply pystr_eqb_eq in H. congruence.
  - intros [= ->]. apply pystr_eqb_refl.
  - intros H. apply Z.eqb_eq in H. congruence.
  - intros [= ->]. apply Z.eqb_refl.
  - intros H. apply pyfloat_eqb_eq in H. congruence.
  - intros [= ->]. now apply pyfloat_eqb_eq.
Qed.

Lemma key_eqb_true (a b : pyval) :
  key_eqb a b = true <-> exists k, key_of a = Some k /\ key_of b = Some k.
Proof.
  unfold key_eqb. destruct (key_of a) as [x|], (key_of b) as [y|]; split;
    try discriminate; try (intros (k & H1 & H2); discriminate).
  - intros H. apply pykey_eqb_eq in H. subst. now exists y.
  - intros (k & [= ->] & [= ->]). now apply pykey_eqb_eq.
Qed.

Lemma key_eqb_sym (a b : pyval) : key_eqb a b = key_eqb b a.
Proof.
  destruct (key_eqb a b) eqn:Hab, (key_eqb b a) eqn:Hba; try reflexivity.
  - apply key_eqb_true in Hab as (k & H1 & H2).
    assert (key_eqb b a = true) by (apply key_eqb_true; now exists k).
    congruence.
  - apply key_eqb_true in Hba as (k & H1 & H2).
    assert (key_eqb a b = true) by (apply key_eqb_true; now exists k).
    congruence.
Qed.

Lemma key_eqb_trans (a b c : pyval) :
  key_eqb a b = true -> key_eqb b c = true -> key_eqb a c = true.
Proof.
  intros Hab Hbc. apply key_eqb_true in Hab as (k & H1 & H2).
  apply key_eqb_true in Hbc as (k' & H3 & H4).
  apply key_eqb_true. exists k. split; congruence.
Qed.

(** Equal keys find the same entries. *)
Lemma key_eqb_congr (a b c : pyval) :
  key_eqb a b = true -> key_eqb c a = key_eqb c b.
Proof.
  intros Hab. destruct (key_eqb c a) eqn:Hca, (key_eqb c b) eqn:Hcb;
    try reflexivity.
  - rewrite (key_eqb_trans _ _ _ Hca Hab) in Hcb. discriminate.
  - rewrite key_eqb_sym in Hab.
    rewrite (key_eqb_trans _ _ _ Hcb Hab) in Hca. discriminate.
Qed.

Lemma key_eqb_str (a b : pystr) : key_eqb (PStr a) (PStr b) = PyStr.eqb a b.
Proof. reflexivity. Qed.

(** Reading after writing. *)
Lemma dict_get_set (k k' v : pyval) (d : pydict) :
  dict_get k (dict_set k' v d) =
    if key_eqb k' k then Some v else dict_get k d.
Proof.
  induction d as [|[k0 v0] d IH]; simpl.
  - reflexivity.
  - destruct (key_eqb k0 k') eqn:H0; simpl.
    + destruct (key_eqb k' k) eqn:Hk.
      * rewrite (key_eqb_trans _ _ _ H0 Hk). reflexivity.
      * destruct (key_eqb k0 k) eqn:H0k; [|reflexivity].
        rewrite key_eqb_sym in H0.
        rewrite (key_eqb_trans _ _ _ H0 H0k) in Hk. discriminate.
    + rewrite IH.
      destruct (key_eqb k0 k) eqn:H0k, (key_eqb k' k) eqn:Hk; try reflexivity.
      rewrite key_eqb_sym in Hk.
      rewrite (key_eqb_trans _ _ _ H0k Hk) in H0. discriminate.
Qed.

Lemma distinct_keys_set (k v : pyval) (d : pydict) :
  distinct_keys d = true -> distinct_keys (dict_set k v d) = true.
Proof.
  induction d as [|[k0 v0] d IH]; simpl; [reflexivity|].
  destruct (dict_get k0 d) eqn:Hget; [discriminate|]. intros Hd.
  destruct (key_eqb k0 k) eqn:H0; simpl.
  - now rewrite Hget.
  - rewrite dict_get_set, key_eqb_sym, H0, Hget. now apply IH.
Qed.

Lemma json_members_set (k : pystr) (v : pyval) (d : pydict) :
  json_value v = true ->
  forallb (fun kv => is_str (fst kv) && json_value (snd kv)) d = true ->
  forallb (fun kv => is_str (fst kv) && json_value (snd kv))
          (dict_set (PStr k) v d) = true.
Proof.
  intros Hv. induction d as [|[k0 v0] d IH]; simpl.
  - now rewrite Hv.
  - intros H. apply andb_prop in H as [H0 Hd]. apply andb_prop in H0 as [Hk0 Hv0].
    destruct (key_eqb k0 (PStr k)); simpl.
    + now rewrite Hk0, Hv, Hd.
    + now rewrite Hk0, Hv0, IH.
Qed.

(** Setting a string key keeps a dict within the JSON values. *)
Lemma json_value_dict_set (k : pystr) (v : pyval) (d : pydict) :
  json_value (PDict d) = true ->
  json_value v = true ->
  json_value (PDict (dict_set (PStr k) v d)) = true.
Proof.
  cbn [json_value]. intros Hd Hv. apply andb_prop in Hd as [Hm Hk].
  now rewrite (json_members_set k v d Hv Hm), (distinct_keys_set _ _ _ Hk).
Qed.

Lemma json_value_list_snoc (l : list pyval) (v : pyval) :
  json_value (PList l) = true ->
  json_value v = true ->
  json_value (PList (l ++ [v])) = true.
Proof.
  cbn [json_value]. intros Hl Hv. rewrite forallb_app, Hl. simpl. now rewrite Hv.
Qed.

(** A dict whose keys are strings can be sorted. *)
Lemma str_keys_orderable (d : pydict) :
  forallb (fun kv => is_str (fst kv)) d = true -> orderable d = true.
Proof.
  destruct d as [|[k v] d]; [reflexivity|]. simpl. intros H.
  apply andb_prop in H as [Hk Hd]. destruct k; try discriminate. simpl.
  assert (Hall : forallb (fun kv => keyclass_eqb (class_of (fst kv)) CStr) d = true).
  { induction d as [|[k0 v0] d IH]; simpl in *; [reflexivity|].
    apply andb_prop in Hd as [Hk0 Hd]. destruct k0; try discriminate.
    simpl. now apply IH. }
  rewrite Hall. destruct d; reflexivity.
Qed.

(** [jsonify] accepts every JSON value. *)
Lemma json_value_orderable : forall v : pyval,
  json_value v = true -> unorderable_dict v = None.
Proof.
  fix IH 1. intros [ | b | z | f | s | l | d]; try reflexivity.
  - cbn [json_value unorderable_dict]. induction l as [|x l IHl]; simpl.
    + reflexivity.
    + intros H. apply andb_prop in H as [Hx Hl]. rewrite (IH x Hx). now apply IHl.
  - cbn [json_value unorderable_dict]. intros H. apply andb_prop in H as [Hm _].
    assert (Hstr : forallb (fun kv => is_str (fst kv)) d = true).
    { clear IH. induction d as [|[k v] d IHd]; simpl in *; [reflexivity|].
      apply andb_prop in Hm as [Hkv Hd]. apply andb_prop in Hkv as [-> _].
      now apply IHd. }
    rewrite (str_keys_orderable d Hstr). clear Hstr.
    induction d as [|[k v] d IHd]; simpl in *.
    + reflexivity.
    + apply andb_prop in Hm as [Hkv Hd]. apply andb_prop in Hkv as [_ Hv].
      rewrite (IH v Hv). now apply IHd.
Qed.

(* ================================================================== *)
(** * The decoder returns JSON values *)

Ltac invert_some :=
  repeat match goal with
         | H : Some _ = Some _ |- _ => injection H as <-
         | H : None = Some _ |- _ => discriminate H
         | H : option_map _ ?x = Some _ |- _ => destruct x eqn:?; simpl in H
         | H : (if ?b then _ else _) = Some _ |- _ => destruct b eqn:?
         | H : match ?x with _ => _ end = Some _ |- _ => destruct x eqn:?
         end.

Lemma put_value_ok (v : pyval) (st : list Json.frame) (p : Json.parser) :
  json_value v = true ->
  forallb frame_ok st = true ->
  Json.put_value v st = Some p ->
  parser_ok p = true.
Proof.
  intros Hv Hst H. destruct st as [|[items|pairs [k|]] st]; cbn [Json.put_value] in H;
    invert_some; unfold parser_ok; cbn [fst snd forallb] in *.
  - now rewrite Hv.
  - apply andb_prop in Hst as [Hf Hst].
    change (json_value (PList items) = true) in Hf.
    change (frame_ok (Json.FArr (items ++ [v])))
      with (json_value (PList (items ++ [v]))).
    now rewrite (json_value_list_snoc items v Hf Hv), Hst.
  - apply andb_prop in Hst as [Hf Hst].
    change (json_value (PDict pairs) = true) in Hf.
    change (frame_ok (Json.FObj (dict_set (PStr k) v pairs) None))
      with (json_value (PDict (dict_set (PStr k) v pairs))).
    now rewrite (json_value_dict_set k v pairs Hf Hv), Hst.
Qed.

Lemma parser_ok_frames (st : list Json.frame) (x : Json.expect) :
  parser_ok (st, x) = true -> forallb frame_ok st = true.
Proof. unfold parser_ok. simpl. intros H. now apply andb_prop in H as [H _]. Qed.

Lemma parser_ok_intro (st : list Json.frame) (x : Json.expect) :
  forallb frame_ok st = true ->
  match x with Json.XEnd v => json_value v | _ => true end = true ->
  parser_ok (st, x) = true.
Proof. unfold parser_ok. simpl. now intros -> ->. Qed.

Lemma on_value_ok (v : pyval) (p p' : Json.parser) :
  json_value v = true ->
  parser_ok p = true ->
  Json.on_value v p = Some p' ->
  parser_ok p' = true.
Proof.
  destruct p as [st x]. intros Hv Hp H. unfold Json.on_value in H.
  destruct (Json.wants_value x); [|discriminate].
  exact (put_value_ok v st p' Hv (parser_ok_frames st x Hp) H).
Qed.

Lemma on_string_ok (s : pystr) (p p' : Json.parser) :
  parser_ok p = true ->
  Json.on_string s p = Some p' ->
  parser_ok p' = true.
Proof.
  destruct p as [st x]. intros Hp H.
  pose proof (parser_ok_frames st x Hp) as Hst.
  unfold Json.on_string in H.
  destruct x; try exact (on_value_ok (PStr s) _ p' eq_refl Hp H);
    destruct st as [|[items|pairs [k|]] st]; try discriminate;
    injection H as <-; apply parser_ok_intro; auto.
Qed.

Lemma on_punct_ok (c : N) (p p' : Json.parser) :
  parser_ok p = true ->
  Json.on_punct c p = Some p' ->
  parser_ok p' = true.
Proof.
  destruct p as [st x]. intros Hp H.
  pose proof (parser_ok_frames st x Hp) as Hst.
  unfold Json.on_punct in H.
  repeat match type of H with
         | (if ?b then _ else _) = Some _ => destruct b
         end; try discriminate H.
  - injection H as <-. now apply parser_ok_intro.
  - injection H as <-. now apply parser_ok_intro.
  - destruct x, st as [|[items|pairs k] st']; try discriminate H;
      cbn [forallb] in Hst; apply andb_prop in Hst as [Hf Hst'];
      exact (put_value_ok _ _ p' Hf Hst' H).
  - destruct x, st as [|[items|pairs [k|]] st']; try discriminate H;
      cbn [forallb] in Hst; apply andb_prop in Hst as [Hf Hst'];
      exact (put_value_ok _ _ p' Hf Hst' H).
  - destruct x, st as [|[items|pairs k] st']; try discriminate H;
      injection H as <-; now apply parser_ok_intro.
  - destruct x; try discriminate H. injection H as <-. now apply parser_ok_intro.
Qed.

Lemma state_ok_intro (l : Json.lexer) (p : Json.parser) :
  match l with Json.LLit _ v => json_value v | _ => true end = true ->
  parser_ok p = true ->
  state_ok (l, p) = true.
Proof. unfold state_ok. simpl. now intros -> ->. Qed.

Lemma state_ok_parser (l : Json.lexer) (p : Json.parser) :
  state_ok (l, p) = true -> parser_ok p = true.
Proof. unfold state_ok. simpl. intros H. now apply andb_prop in H as [_ H]. Qed.

Lemma number_value_ok (ph : Json.numphase) (n : Json.number) (v : pyval) :
  Json.number_value ph n = Some v -> json_value v = true.
Proof. destruct ph; simpl; intros [= <-]; reflexivity. Qed.

Lemma step_idle_ok (c : N) (p : Json.parser) (s : Json.state) :
  parser_ok p = true ->
  Json.step_idle c p = Some s ->
  state_ok s = true.
Proof.
  intros Hp H. unfold Json.step_idle in H.
  repeat match type of H with
         | (if ?b then _ else _) = Some _ => destruct b
         end; try discriminate H;
    try (injection H as <-; now apply state_ok_intro).
  destruct (Json.on_punct c p) as [p'|] eqn:Hpunct; [|discriminate H].
  injection H as <-. apply state_ok_intro; [reflexivity|].
  exact (on_punct_ok c p p' Hp Hpunct).
Qed.

Lemma end_number_ok (ph : Json.numphase) (n : Json.number) (c : N)
    (p : Json.parser) (s : Json.state) :
  parser_ok p = true ->
  Json.end_number ph n c p = Some s ->
  state_ok s = true.
Proof.
  intros Hp H. unfold Json.end_number in H.
  destruct (Json.number_value ph n) as [v|] eqn:Hv; [|discriminate H].
  destruct (Json.on_value v p) as [p'|] eqn:Hon; [|discriminate H].
  apply (step_idle_ok c p' s); [|exact H].
  exact (on_value_ok v p p' (number_value_ok _ _ _ Hv) Hp Hon).
Qed.

Lemma step_number_ok (ph : Json.numphase) (n : Json.number) (c : N)
    (p : Json.parser) (s : Json.state) :
  parser_ok p = true ->
  Json.step_number ph n c p = Some s ->
  state_ok s = true.
Proof.
  intros Hp H. unfold Json.step_number in H.
  destruct ph;
    repeat match type of H with
           | (if ?b then _ else _) = Some _ => destruct b
           end; try discriminate H;
    try (injection H as <-; now apply state_ok_intro);
    exact (end_number_ok _ n c p s Hp H).
Qed.

(** Every step of the decoder keeps its state within the JSON values. *)
Lemma step_ok (s s' : Json.state) (c : N) :
  state_ok s = true -> Json.step s c = Some s' -> state_ok s' = true.
Proof.
  destruct s as [l p]. intros Hs H.
  pose proof (state_ok_parser l p Hs) as Hp.
  destruct l as [|acc hi|acc hi|acc hi todo v|rest v|ph n]; cbn [Json.step] in H.
  - exact (step_idle_ok c p s' Hp H).
  - repeat match type of H with
           | (if ?b then _ else _) = Some _ => destruct b
           end; try discriminate H;
      try (injection H as <-; now apply state_ok_intro).
    destruct (Json.on_string (Json.flush acc hi) p) as [p'|] eqn:Hon;
      [|discriminate H].
    injection H as <-. apply state_ok_intro; [reflexivity|].
    exact (on_string_ok _ p p' Hp Hon).
  - destruct (c =? 117)%N.
    + injection H as <-. now apply state_ok_intro.
    + destruct (Json.escape_char c); [|discriminate H].
      injection H as <-. now apply state_ok_intro.
  - destruct (Json.hex_value c) as [h|]; [|discriminate H].
    destruct todo as [|[|k]]; injection H as <-; apply state_ok_intro; auto;
      unfold Json.on_unicode; destruct hi;
      repeat match goal with
             | |- context [if ?b then _ else _] => destruct b
             end; reflexivity.
  - destruct rest as [|x rest']; [discriminate H|].
    destruct (c =? x)%N; [|discriminate H].
    assert (Hv : json_value v = true).
    { unfold state_ok in Hs. simpl in Hs. now apply andb_prop in Hs as [Hs _]. }
    destruct rest' as [|y rest''].
    + destruct (Json.on_value v p) as [p'|] eqn:Hon; [|discriminate H].
      injection H as <-. apply state_ok_intro; [reflexivity|].
      exact (on_value_ok v p p' Hv Hp Hon).
    + injection H as <-. now apply state_ok_intro.
  - exact (step_number_ok ph n c p s' Hp H).
Qed.

Lemma run_ok (text : pystr) (s s' : Json.state) :
  state_ok s = true -> Json.run s text = Some s' -> state_ok s' = true.
Proof.
  revert s. induction text as [|c text IH]; intros s Hs H; simpl in H.
  - now injection H as <-.
  - destruct (Json.step s c) as [s1|] eqn:Hstep; [|discriminate H].
    exact (IH s1 (step_ok s s1 c Hs Hstep) H).
Qed.

Lemma finish_ok (s : Json.state) (v : pyval) :
  state_ok s = true -> Json.finish s = Some v -> json_value v = true.
Proof.
  destruct s as [l p]. intros Hs H.
  pose proof (state_ok_parser l p Hs) as Hp.
  unfold Json.finish in H.
  assert (Hfinal : forall p', parser_ok p' = true ->
            match p' with
            | ([], Json.XEnd v0) => Some v0
            | _ => None
            end = Some v -> json_value v = true).
  { intros [[|f st] x] Hp' H'; [|discriminate H'].
    destruct x; try discriminate H'. injection H' as <-.
    unfold parser_ok in Hp'. simpl in Hp'. exact Hp'. }
  destruct l as [|acc hi|acc hi|acc hi todo v0|rest v0|ph n]; try discriminate H.
  - exact (Hfinal p Hp H).
  - destruct (Json.number_value ph n) as [v0|] eqn:Hv; [|discriminate H].
    destruct (Json.on_value v0 p) as [p'|] eqn:Hon; [|discriminate H].
    exact (Hfinal p' (on_value_ok v0 p p' (number_value_ok _ _ _ Hv) Hp Hon) H).
Qed.

(** What [json.loads] returns is a JSON value. *)
Lemma loads_json_value (s : pystr) (v : pyval) :
  Json.loads s = Ok v -> json_value v = true.
Proof.
  unfold Json.loads. intros H.
  destruct (Json.run Json.initial s) as [st|] eqn:Hrun; [|discriminate H].
  destruct (Json.finish st) as [v0|] eqn:Hfin; [|discriminate H].
  injection H as <-.
  exact (finish_ok st v0 (run_ok s Json.initial st eq_refl Hrun) Hfin).
Qed.

(* ================================================================== *)
(** * The pages hold JSON values *)

Lemma extraction_of_json_value (reply : external pystr) :
  json_value (extraction_of reply) = true.
Proof.
  destruct reply as [text|msg]; [|reflexivity].
  unfold extraction_of, parse_reply.
  destruct (Json.loads (json_candidate text)) as [v|e] eqn:Hloads; [|reflexivity].
  exact (loads_json_value _ _ Hloads).
Qed.

Lemma process_pages_json (E : env) (images : list image) (idx : Z)
    (acc results : list page_result) (w w' : world) :
  Forall json_page acc ->
  process_pages E idx images acc w = (Ok results, w') ->
  Forall json_page results.
Proof.
  revert idx acc w. induction images as [|image rest IH]; intros idx acc w Hacc H.
  - injection H as <- _. exact Hacc.
  - cbn [process_pages] in H. unfold bind at 1 in H.
    destruct (image_save_jpeg E image) as [image_data|msg]; simpl in H;
      [|discriminate H].
    unfold bind at 1 in H. rewrite extract_returns in H.
    apply IH in H; [exact H|].
    apply Forall_app. split; [exact Hacc|].
    constructor; [|constructor]. apply extraction_of_json_value.
Qed.

(** Every page the dispatcher returns holds a JSON value. *)
Lemma process_uploaded_file_json (E : env) (path : pystr)
    (results : list page_result) (w w' : world) :
  process_uploaded_file E path w = (Ok results, w') ->
  Forall json_page results.
Proof.
  unfold process_uploaded_file.
  destruct (mem (file_extension_of path) [u ".pdf"]).
  - unfold bind. destruct (convert_pdf_to_images_total E path w) as [images ->].
    destruct images as [|image rest].
    + intros [= <- _]. repeat constructor.
    + apply process_pages_json. constructor.
  - destruct (mem (file_extension_of path) _); [|discriminate].
    unfold bind, read_file. destruct (disk_read path (disk w)); [|discriminate].
    rewrite extract_returns. intros [= <- _].
    constructor; [|constructor]. apply extraction_of_json_value.
Qed.

(* ================================================================== *)
(** * One page *)

(** What [jsonify] accepts under the key [data] has no dict with keys
    that cannot be sorted. *)
Lemma jsonify_accepts_data (out : pyval) (w : world) :
  fst (jsonify (data_body out) w) = Ok (data_body out) ->
  unorderable_dict out = None.
Proof.
  unfold jsonify. destruct (unorderable_dict (data_body out)) as [d|] eqn:Hbody;
    [discriminate|].
  intros _. unfold data_body in Hbody. simpl in Hbody.
  now destruct (unorderable_dict out).
Qed.

(** C6 (amended). When the dispatcher returns exactly one page whose
    data has [key_value_pairs], with [key_value_pairs] not empty or
    [extracted_tests] present and not empty, and [jsonify] can
    serialise that data, the endpoint answers 200 with [{"data": d}]
    where [d] is the page's data, unchanged. *)
Theorem single_page_is_returned_verbatim
    (E : env) (file : file_storage) (w w' : world) (r : page_result)
    (kv : pyval) :
  let path := OsPath.join UPLOAD_FOLDER (filename file) in
  filename file <> [] ->
  save_fails E path = None ->
  process_uploaded_file E path (saved path file w) = (Ok [r], w') ->
  subscript (data r) (u "key_value_pairs") = Ok kv ->
  truthy kv = true
  \/ (exists et, subscript (data r) (u "extracted_tests") = Ok et
                 /\ truthy et = true) ->
  fst (jsonify (PDict [(PStr (u "data"), data r)]) w')
    = Ok (PDict [(PStr (u "data"), data r)]) ->
  upload_file E {| files_file := Some file |} w =
    (Ok (Some {| status := 200; body := PDict [(PStr (u "data"), data r)] |}), w').
Proof.
  intros path Hname Hsave Hproc Hkv Hsome Hjsonify.
  rewrite (upload_file_saved E file w Hname Hsave). cbv zeta. fold path.
  rewrite (respond_to_results E path _ _ _ (data r) Hproc).
  - reflexivity.
  - unfold nothing_extracted.
    change str_key_value_pairs with (u "key_value_pairs").
    change str_extracted_tests with (u "extracted_tests").
    rewrite Hkv. cbn [rbind]. destruct (truthy kv) eqn:Hk; [reflexivity|].
    destruct Hsome as [H|(et & Het & H)]; [discriminate H|].
    rewrite Het. cbn [rbind]. now rewrite H.
  - reflexivity.
  - exact (jsonify_accepts_data (data r) w' Hjsonify).
Qed.

Lemma single_page_is_returned_verbatim_witness :
  upload_file (Fixtures.env_replying Fixtures.hemoglobin_reply)
    (Fixtures.upload_named (u "scan.jpg")) Fixtures.fresh =
    (Ok (Some {| status := 200;
                 body := PDict [(PStr (u "data"), Fixtures.hemoglobin_extraction)] |}),
     {| disk := [(u "Uploads/scan.jpg", Fixtures.some_bytes)];
        model_calls := [(u "image/jpeg", Fixtures.some_bytes)] |}).
Proof.
  apply (single_page_is_returned_verbatim
           (Fixtures.env_replying Fixtures.hemoglobin_reply)
           {| filename := u "scan.jpg"; stream := Fixtures.some_bytes |}
           Fixtures.fresh _
           {| page := 1; data := Fixtures.hemoglobin_extraction |}
           (PDict [])).
  - discriminate.
  - reflexivity.
  - vm_compute. reflexivity.
  - vm_compute. reflexivity.
  - right. exists (PDict [(PStr (u "hemoglobin"), PStr (u "13.5 g/dL"))]).
    split; vm_compute; reflexivity.
  - vm_compute. reflexivity.
Defined.

(** C6 as stated fails: a single page that holds tests but no
    [key_value_pairs] is not empty, and is answered 500. *)
Lemma single_page_with_tests_only_is_answered_500 :
  fst (process_uploaded_file (Fixtures.env_replying Fixtures.tests_only_reply)
         (u "Uploads/scan.jpg")
         {| disk := [(u "Uploads/scan.jpg", Fixtures.some_bytes)]; model_calls := [] |})
    = Ok [{| page := 1; data := Fixtures.tests_only_data |}]
  /\ page_lookup (u "extracted_tests") (u "hemoglobin")
       {| page := 1; data := Fixtures.tests_only_data |}
     = Some (PStr (u "13.5 g/dL"))
  /\ fst (upload_file (Fixtures.env_replying Fixtures.tests_only_reply)
            (Fixtures.upload_named (u "scan.jpg")) Fixtures.fresh)
     = Ok (Some {| status := 500;
                   body := PDict [(PStr (u "error"),
                                   PStr (u "Processing failed: 'key_value_pairs'"))] |})
  /\ fst (upload_file (Fixtures.env_replying Fixtures.tests_only_reply)
            (Fixtures.upload_named (u "scan.jpg")) Fixtures.fresh)
     <> Ok (Some {| status := 200;
                    body := PDict [(PStr (u "data"), Fixtures.tests_only_data)] |}).
Proof.
  repeat split; try (vm_compute; reflexivity).
  vm_compute. discriminate.
Qed.

(* ================================================================== *)
(** * Merging the pages *)

Lemma dict_get_congr (a b : pyval) (d : pydict) :
  key_eqb a b = true -> dict_get a d = dict_get b d.
Proof.
  intros Hab. induction d as [|[k v] d IH]; simpl; [reflexivity|].
  now rewrite (key_eqb_congr a b k Hab), IH.
Qed.

(** Updating with a dict: its bindings win, the others stay. *)
Lemma dict_get_update (k : pyval) (o d : pydict) :
  distinct_keys o = true ->
  dict_get k (fold_left (fun acc kv => dict_set (fst kv) (snd kv) acc) o d) =
    match dict_get k o with
    | Some v => Some v
    | None => dict_get k d
    end.
Proof.
  revert d. induction o as [|[k1 v1] o IH]; intros d Hdist; simpl.
  - reflexivity.
  - simpl in Hdist. destruct (dict_get k1 o) eqn:Hk1; [discriminate Hdist|].
    rewrite (IH _ Hdist), dict_get_set.
    destruct (key_eqb k1 k) eqn:Hk; [|reflexivity].
    now rewrite <- (dict_get_congr k1 k o Hk), Hk1.
Qed.

Lemma json_value_update (o d : pydict) :
  json_value (PDict o) = true ->
  json_value (PDict d) = true ->
  json_value (PDict (fold_left (fun acc kv => dict_set (fst kv) (snd kv) acc) o d)) = true.
Proof.
  intros Ho. cbn [json_value] in Ho. apply andb_prop in Ho as [Ho _].
  revert d. induction o as [|[k v] o IH]; intros d Hd; simpl.
  - exact Hd.
  - simpl in Ho. apply andb_prop in Ho as [Hkv Ho].
    apply andb_prop in Hkv as [Hk Hv]. destruct k; try discriminate Hk.
    apply (IH Ho). now apply json_value_dict_set.
Qed.

Lemma json_value_member (k v : pyval) (d : pydict) :
  json_value (PDict d) = true -> dict_get k d = Some v -> json_value v = true.
Proof.
  cbn [json_value]. intros Hd. apply andb_prop in Hd as [Hd _].
  induction d as [|[k0 v0] d IH]; simpl; [discriminate|].
  simpl in Hd. apply andb_prop in Hd as [Hkv Hd]. apply andb_prop in Hkv as [_ Hv0].
  destruct (key_eqb k0 k); [intros [= <-]; exact Hv0 | now apply IH].
Qed.

Lemma page_mapping_json (field : pystr) (r : page_result) (o : pydict) :
  json_page r -> page_mapping field r = Some o -> json_value (PDict o) = true.
Proof.
  unfold json_page, page_mapping, subscript. intros Hr.
  destruct (data r) as [ | | | | | |d]; try discriminate.
  destruct (dict_get (PStr field) d) as [x|] eqn:Hget; [|discriminate].
  destruct x; try discriminate. intros [= <-].
  exact (json_value_member _ _ _ Hr Hget).
Qed.

Lemma json_value_distinct (o : pydict) :
  json_value (PDict o) = true -> distinct_keys o = true.
Proof. cbn [json_value]. intros H. now apply andb_prop in H as [_ H]. Qed.

(** The loop over the pages: the combined mappings bind each key to its
    value in the last page that has it. *)
Lemma combine_pages_lookup (results : list page_result) :
  Forall json_page results ->
  Forall has_mappings results ->
  forall ckv cet : pydict,
    json_value (PDict ckv) = true ->
    json_value (PDict cet) = true ->
    exists K T,
      combine_pages results ckv cet = Ok (K, T)
      /\ json_value (PDict K) = true
      /\ json_value (PDict T) = true
      /\ (forall key,
            dict_get (PStr key) K =
              match last_bound (map (page_lookup str_key_value_pairs key) results) with
              | Some v => Some v
              | None => dict_get (PStr key) ckv
              end)
      /\ (forall key,
            dict_get (PStr key) T =
              match last_bound (map (page_lookup str_extracted_tests key) results) with
              | Some v => Some v
              | None => dict_get (PStr key) cet
              end).
Proof.
  intros Hjson Hmaps. induction results as [|r results IH]; intros ckv cet Hckv Hcet.
  - exists ckv, cet. repeat split; auto.
  - inversion Hjson as [|? ? Hr Hjson']; subst.
    inversion Hmaps as [|? ? (kv & et & Hkv & Het) Hmaps']; subst.
    pose proof (page_mapping_json _ _ _ Hr Hkv) as Hkvj.
    pose proof (page_mapping_json _ _ _ Hr Het) as Hetj.
    destruct (IH Hjson' Hmaps' _ _
                (json_value_update kv ckv Hkvj Hckv)
                (json_value_update et cet Hetj Hcet))
      as (K & T & Hcomb & HK & HT & HgetK & HgetT).
    exists K, T. cbn [combine_pages].
    rewrite (page_mapping_subscript _ _ _ Hkv), (page_mapping_subscript _ _ _ Het).
    cbn [rbind dict_update]. repeat split; auto.
    + intros key. rewrite HgetK. cbn [map last_bound].
      destruct (last_bound (map (page_lookup str_key_value_pairs key) results));
        [reflexivity|].
      rewrite (dict_get_update _ _ _ (json_value_distinct _ Hkvj)).
      unfold page_lookup. rewrite Hkv. reflexivity.
    + intros key. rewrite HgetT. cbn [map last_bound].
      destruct (last_bound (map (page_lookup str_extracted_tests key) results));
        [reflexivity|].
      rewrite (dict_get_update _ _ _ (json_value_distinct _ Hetj)).
      unfold page_lookup. rewrite Het. reflexivity.
Qed.

(** The last page that binds the key decides. *)
Lemma last_bound_decides (lookups : list (option pyval)) (j : nat) (v : pyval) :
  nth_error lookups j = Some (Some v) ->
  (forall l x, (j < l)%nat -> nth_error lookups l = Some x -> x = None) ->
  last_bound lookups = Some v.
Proof.
  revert j. induction lookups as [|x lookups IH]; intros j Hj Hlater.
  - destruct j; discriminate Hj.
  - cbn [last_bound]. destruct j as [|j].
    + injection Hj as ->.
      assert (Hnone : last_bound lookups = None).
      { clear IH. induction lookups as [|y lookups IHl]; [reflexivity|].
        cbn [last_bound]. rewrite IHl.
        - apply (Hlater 1%nat y); [lia | reflexivity].
        - intros l z Hl Hz. destruct l as [|l]; [lia|].
          apply (Hlater (S (S l)) z); [lia | exact Hz]. }
      now rewrite Hnone.
    + rewrite (IH j Hj); [reflexivity|].
      intros l z Hl Hz. apply (Hlater (S l) z); [lia | exact Hz].
Qed.

Lemma nth_error_lookup (field key : pystr) (results : list page_result)
    (i : nat) (r : page_result) :
  nth_error results i = Some r ->
  nth_error (map (page_lookup field key) results) i = Some (page_lookup field key r).
Proof. intros H. now rewrite nth_error_map, H. Qed.

Lemma lookup_of_nth (field key : pystr) (results : list page_result)
    (l : nat) (x : option pyval) :
  nth_error (map (page_lookup field key) results) l = Some x ->
  exists r, nth_error results l = Some r /\ x = page_lookup field key r.
Proof.
  rewrite nth_error_map. destruct (nth_error results l) as [r|]; [|discriminate].
  intros [= <-]. now exists r.
Qed.

(** C3 (amended). When the dispatcher returns two or more pages, each
    with its two mappings, the endpoint answers 200 and each combined
    mapping binds a key to its value in the last page that has it: a
    key present in exactly one page keeps that page's value, and a key
    present in two pages has the later page's value. *)
Theorem pages_are_merged_last_write_wins
    (E : env) (file : file_storage) (w w' : world) (results : list page_result) :
  let path := OsPath.join UPLOAD_FOLDER (filename file) in
  filename file <> [] ->
  save_fails E path = None ->
  process_uploaded_file E path (saved path file w) = (Ok results, w') ->
  (2 <= List.length results)%nat ->
  Forall has_mappings results ->
  exists resp : response,
    upload_file E {| files_file := Some file |} w = (Ok (Some resp), w')
    /\ status resp = 200
    /\ forall field : pystr,
         In field [u "key_value_pairs"; u "extracted_tests"] ->
         forall key : pystr,
           response_lookup field key resp
             = last_bound (map (page_lookup field key) results)
           /\ (forall i r v,
                 nth_error results i = Some r ->
                 page_lookup field key r = Some v ->
                 (forall j r', j <> i -> nth_error results j = Some r' ->
                               page_lookup field key r' = None) ->
                 response_lookup field key resp = Some v)
           /\ (forall i j ri rj vi vj,
                 (i < j)%nat ->
                 nth_error results i = Some ri ->
                 nth_error results j = Some rj ->
                 page_lookup field key ri = Some vi ->
                 page_lookup field key rj = Some vj ->
                 vi <> vj ->
                 (forall l r', l <> i -> l <> j -> nth_error results l = Some r' ->
                               page_lookup field key r' = None) ->
                 response_lookup field key resp = Some vj).
Proof.
  intros path Hname Hsave Hproc Hlen Hmaps.
  pose proof (process_uploaded_file_json E path _ _ _ Hproc) as Hjson.
  destruct (combine_pages_lookup results Hjson Hmaps [] [] eq_refl eq_refl)
    as (K & T & Hcomb & HK & HT & HgetK & HgetT).
  set (out := PDict [(PStr str_key_value_pairs, PDict K);
                     (PStr str_extracted_tests, PDict T)]).
  assert (Hout : final_output_of results = Ok out).
  { destruct results as [|r1 [|r2 rest]]; simpl in Hlen; try lia.
    unfold final_output_of. rewrite Hcomb. reflexivity. }
  assert (Hord : unorderable_dict out = None).
  { apply json_value_orderable.
    change (json_value out)
      with (json_value (PDict K) && (json_value (PDict T) && true) && true).
    now rewrite HK, HT. }
  assert (Hnot : nothing_extracted results = Ok false).
  { destruct results as [|r1 [|r2 rest]]; simpl in Hlen; try lia. reflexivity. }
  exists {| status := 200; body := data_body out |}.
  split; [|split; [reflexivity|]].
  - rewrite (upload_file_saved E file w Hname Hsave). cbv zeta. fold path.
    now rewrite (respond_to_results E path _ _ _ out Hproc Hnot Hout Hord).
  - intros field Hfield key.
    assert (Hlookup : response_lookup field key {| status := 200; body := data_body out |}
                      = last_bound (map (page_lookup field key) results)).
    { destruct Hfield as [<-|[<-|[]]].
      - change (response_lookup (u "key_value_pairs") key
                  {| status := 200; body := data_body out |})
          with (dict_get (PStr key) K).
        rewrite HgetK. change (u "key_value_pairs") with str_key_value_pairs.
        now destruct (last_bound (map (page_lookup str_key_value_pairs key) results)).
      - change (response_lookup (u "extracted_tests") key
                  {| status := 200; body := data_body out |})
          with (dict_get (PStr key) T).
        rewrite HgetT. change (u "extracted_tests") with str_extracted_tests.
        now destruct (last_bound (map (page_lookup str_extracted_tests key) results)). }
    split; [exact Hlookup|]. split.
    + intros i r v Hi Hv Hothers. rewrite Hlookup.
      apply (last_bound_decides _ i).
      * now rewrite (nth_error_lookup field key results i r Hi), Hv.
      * intros l x Hl Hx. apply lookup_of_nth in Hx as (r' & Hr' & ->).
        apply (Hothers l r'); [lia | exact Hr'].
    + intros i j ri rj vi vj Hij Hi Hj Hvi Hvj _ Hothers. rewrite Hlookup.
      apply (last_bound_decides _ j).
      * now rewrite (nth_error_lookup field key results j rj Hj), Hvj.
      * intros l x Hl Hx. apply lookup_of_nth in Hx as (r' & Hr' & ->).
        apply (Hothers l r'); [lia | lia | exact Hr'].
Qed.

Lemma pages_are_merged_last_write_wins_witness :
  exists resp : response,
    upload_file
      (Fixtures.env_with_pages [Fixtures.some_bytes; []] Fixtures.two_page_replies)
      (Fixtures.upload_named (u "report.pdf")) Fixtures.fresh
    = (Ok (Some resp),
       {| disk := [(u "Uploads/report.pdf", Fixtures.some_bytes)];
          model_calls := [(u "image/jpeg", Fixtures.some_bytes); (u "image/jpeg", [])] |})
    /\ status resp = 200
    /\ response_lookup (u "key_value_pairs") (u "name") resp
       = Some (PStr (u "A. Patient"))
    /\ response_lookup (u "extracted_tests") (u "glucose") resp = Some (PInt 90)
    /\ response_lookup (u "extracted_tests") (u "hemoglobin") resp
       = Some (PStr (u "14.1 g/dL")).
Proof.
  destruct (pages_are_merged_last_write_wins
              (Fixtures.env_with_pages [Fixtures.some_bytes; []] Fixtures.two_page_replies)
              {| filename := u "report.pdf"; stream := Fixtures.some_bytes |}
              Fixtures.fresh
              {| disk := [(u "Uploads/report.pdf", Fixtures.some_bytes)];
                 model_calls := [(u "image/jpeg", Fixtures.some_bytes);
                                 (u "image/jpeg", [])] |}
              [{| page := 1; data := Fixtures.first_page_data |};
               {| page := 2; data := Fixtures.second_page_data |}])
    as (resp & Hup & Hstatus & Hfields).
  - discriminate.
  - reflexivity.
  - vm_compute. reflexivity.
  - simpl. lia.
  - repeat constructor.
    + eexists. eexists. split; vm_compute; reflexivity.
    + eexists. eexists. split; vm_compute; reflexivity.
  - exists resp. split; [exact Hup|]. split; [exact Hstatus|].
    split; [|split].
    + destruct (Hfields (u "key_value_pairs") (or_introl eq_refl) (u "name"))
        as (_ & Hone & _).
      apply (Hone 0%nat {| page := 1; data := Fixtures.first_page_data |});
        [reflexivity | vm_compute; reflexivity |].
      intros [|[|j]] r' Hj Hr'; [congruence | | destruct j; discriminate Hr'].
      injection Hr' as <-. vm_compute. reflexivity.
    + destruct (Hfields (u "extracted_tests") (or_intror (or_introl eq_refl)) (u "glucose"))
        as (_ & Hone & _).
      apply (Hone 0%nat {| page := 1; data := Fixtures.first_page_data |});
        [reflexivity | vm_compute; reflexivity |].
      intros [|[|j]] r' Hj Hr'; [congruence | | destruct j; discriminate Hr'].
      injection Hr' as <-. vm_compute. reflexivity.
    + destruct (Hfields (u "extracted_tests") (or_intror (or_introl eq_refl)) (u "hemoglobin"))
        as (_ & _ & Htwo).
      apply (Htwo 0%nat 1%nat
               {| page := 1; data := Fixtures.first_page_data |}
               {| page := 2; data := Fixtures.second_page_data |}
               (PStr (u "13.5 g/dL")) (PStr (u "14.1 g/dL")));
        [lia | reflexivity | reflexivity | vm_compute; reflexivity
         | vm_compute; reflexivity | discriminate |].
      intros [|[|l]] r' Hi Hj Hr'; [congruence | congruence | destruct l; discriminate Hr'].
Defined.

(** C3 as stated fails: with two pages of which the second has no
    [key_value_pairs], a key held by exactly one page is not in the
    output; the upload is answered 500. *)
Lemma merge_fails_when_a_page_lacks_a_mapping :
  fst (process_uploaded_file
         (Fixtures.env_with_pages [Fixtures.some_bytes; []] Fixtures.first_then_tests_only)
         (u "Uploads/report.pdf")
         {| disk := [(u "Uploads/report.pdf", Fixtures.some_bytes)]; model_calls := [] |})
    = Ok [{| page := 1; data := Fixtures.first_page_data |};
          {| page := 2; data := Fixtures.tests_only_data |}]
  /\ page_lookup (u "extracted_tests") (u "glucose")
       {| page := 1; data := Fixtures.first_page_data |} = Some (PInt 90)
  /\ page_lookup (u "extracted_tests") (u "glucose")
       {| page := 2; data := Fixtures.tests_only_data |} = None
  /\ fst (upload_file
            (Fixtures.env_with_pages [Fixtures.some_bytes; []] Fixtures.first_then_tests_only)
            (Fixtures.upload_named (u "report.pdf")) Fixtures.fresh)
     = Ok (Some {| status := 500;
                   body := PDict [(PStr (u "error"),
                                   PStr (u "Processing failed: 'key_value_pairs'"))] |})
  /\ response_lookup (u "extracted_tests") (u "glucose")
       {| status := 500;
          body := PDict [(PStr (u "error"),
                          PStr (u "Processing failed: 'key_value_pairs'"))] |}
     = None.
Proof. repeat split; vm_compute; reflexivity. Qed.

(* ================================================================== *)
(** * Further properties: the pages of a PDF *)

Lemma after_calls_app (a b : list (pystr * bytes)) (w : world) :
  after_calls b (after_calls a w) = after_calls (a ++ b) w.
Proof. unfold after_calls. simpl. now rewrite app_assoc. Qed.

Lemma after_no_calls (w : world) : after_calls [] w = w.
Proof. destruct w. unfold after_calls. simpl. now rewrite app_nil_r. Qed.

(** The loop over the pages, when every page encodes. *)
Lemma process_pages_encoded (E : env) (images : list image) (encoded : list bytes) :
  encodes E images encoded ->
  forall (idx : Z) (acc : list page_result) (w : world),
    process_pages E idx images acc w =
      (Ok (acc ++ pages_from E (List.length (model_calls w)) (idx + 1) encoded),
       after_calls (jpeg_calls encoded) w).
Proof.
  induction 1 as [|image b images encoded Hb _ IH]; intros idx acc w.
  - simpl. now rewrite app_nil_r, after_no_calls.
  - cbn [process_pages]. unfold bind at 1. rewrite Hb. simpl.
    unfold bind at 1. rewrite extract_returns. rewrite IH.
    unfold called, after_calls. cbn [model_calls disk jpeg_calls map pages_from].
    rewrite <- !app_assoc, length_app. simpl.
    now rewrite Nat.add_1_r.
Qed.

(** The loop over the pages, when a page does not encode: the pages
    before it were sent to the model, and their results are lost. *)
Lemma process_pages_encoder_fails (E : env) (before : list image)
    (encoded : list bytes) (img : image) (rest : list image) (msg : pystr) :
  encodes E before encoded ->
  image_save_jpeg E img = Fails msg ->
  forall (idx : Z) (acc : list page_result) (w : world),
    process_pages E idx (before ++ img :: rest) acc w =
      (Raise (ExternalError msg), after_calls (jpeg_calls encoded) w).
Proof.
  intros Henc Hfail. induction Henc as [|image0 b before encoded Hb _ IH];
    intros idx acc w.
  - cbn [app process_pages]. unfold bind at 1. rewrite Hfail. simpl.
    now rewrite after_no_calls.
  - cbn [app process_pages]. unfold bind at 1. rewrite Hb. simpl.
    unfold bind at 1. rewrite extract_returns. rewrite IH.
    unfold called, after_calls. cbn [model_calls disk jpeg_calls map].
    now rewrite <- !app_assoc.
Qed.


Lemma pages_from_length (E : env) (encoded : list bytes) (n : nat) (first : Z) :
  List.length (pages_from E n first encoded) = List.length encoded.
Proof.
  revert n first. induction encoded as [|b encoded IH]; intros n first; simpl;
    [reflexivity | now rewrite IH].
Qed.

Lemma process_pdf_with_pages (E : env) (path : pystr) (w : world)
    (img : image) (rest : list image) :
  file_extension_of path = u ".pdf" ->
  fst (convert_pdf_to_images E path w) = Ok (img :: rest) ->
  process_uploaded_file E path w = process_pages E 0 (img :: rest) [] w.
Proof.
  intros Hext Himages. unfold process_uploaded_file. rewrite Hext.
  change (mem (u ".pdf") [u ".pdf"]) with true. cbv iota. unfold bind.
  destruct (convert_pdf_to_images_total E path w) as [images Hconv].
  rewrite Hconv in *. simpl in Himages. injection Himages as ->. reflexivity.
Qed.



(** X2. When a page of a PDF cannot be encoded as JPEG, the upload is
    answered 500 "Processing failed: <the encoder's message>": the pages
    before it were sent to the model, one call each, and their results
    are dropped. *)
Theorem encoder_failure_drops_every_page
    (E : env) (file : file_storage) (w : world) (before rest : list image)
    (img : image) (encoded : list bytes) (msg : pystr) :
  let path := OsPath.join UPLOAD_FOLDER (filename file) in
  filename file <> [] ->
  save_fails E path = None ->
  file_extension_of path = u ".pdf" ->
  fst (convert_pdf_to_images E path (saved path file w))
    = Ok (before ++ img :: rest) ->
  encodes E before encoded ->
  image_save_jpeg E img = Fails msg ->
  upload_file E {| files_file := Some file |} w =
    (Ok (Some {| status := 500;
                 body := PDict [(PStr (u "error"),
                                 PStr (u "Processing failed: " ++ msg))] |}),
     {| disk := disk_write path (stream file) (disk w);
        model_calls := model_calls w
                         ++ map (fun b => (u "image/jpeg", b)) encoded |}).
Proof.
  intros path Hname Hsave Hext Hconv Henc Hfail.
  rewrite (upload_file_saved E file w Hname Hsave). cbv zeta. fold path.
  assert (Hproc : process_uploaded_file E path (saved path file w) =
                  (Raise (ExternalError msg),
                   after_calls (jpeg_calls encoded) (saved path file w))).
  { destruct (before ++ img :: rest) as [|img0 rest0] eqn:Himages.
    - destruct before; discriminate Himages.
    - rewrite (process_pdf_with_pages E path _ img0 rest0 Hext Hconv).
      rewrite <- Himages.
      exact (process_pages_encoder_fails E before encoded img rest msg
               Henc Hfail 0 [] _). }
  now rewrite (respond_to_exception E path _ _ _ Hproc).
Qed.

Lemma encoder_failure_drops_every_page_witness :
  upload_file (Fixtures.env_encoder_fails [Fixtures.some_bytes; []; Fixtures.some_bytes])
    (Fixtures.upload_named (u "report.pdf")) Fixtures.fresh =
    (Ok (Some {| status := 500;
                 body := PDict [(PStr (u "error"),
                                 PStr (u "Processing failed: cannot write empty image as JPEG"))] |}),
     {| disk := [(u "Uploads/report.pdf", Fixtures.some_bytes)];
        model_calls := [(u "image/jpeg", Fixtures.some_bytes)] |}).
Proof.
  apply (encoder_failure_drops_every_page
           (Fixtures.env_encoder_fails [Fixtures.some_bytes; []; Fixtures.some_bytes])
           {| filename := u "report.pdf"; stream := Fixtures.some_bytes |}
           Fixtures.fresh [Fixtures.some_bytes] [Fixtures.some_bytes] []
           [Fixtures.some_bytes] (u "cannot write empty image as JPEG")).
  - discriminate.
  - reflexivity.
  - vm_compute. reflexivity.
  - vm_compute. reflexivity.
  - repeat constructor.
  - reflexivity.
Defined.

(** X3. When the rasteriser raises on an uploaded PDF, the error is
    swallowed: no model call is made and the answer is the 500
    extraction-failure message, not a "Processing failed" one. *)
Theorem rasteriser_failure_is_an_extraction_failure
    (E : env) (file : file_storage) (w : world) (msg : pystr) :
  let path := OsPath.join UPLOAD_FOLDER (filename file) in
  filename file <> [] ->
  save_fails E path = None ->
  file_extension_of path = u ".pdf" ->
  convert_from_path E path (Some (stream file)) = Fails msg ->
  upload_file E {| files_file := Some file |} w =
    (Ok (Some {| status := 500;
                 body := PDict [(PStr (u "error"),
                                 PStr (u "Failed to extract data from the file. Ensure the file contains readable medical report data."))] |}),
     {| disk := disk_write path (stream file) (disk w);
        model_calls := model_calls w |}).
Proof.
  intros path Hname Hsave Hext Hfail.
  rewrite (upload_file_saved E file w Hname Hsave). cbv zeta. fold path.
  assert (Hnone : fst (convert_pdf_to_images E path (saved path file w)) = Ok []).
  { unfold convert_pdf_to_images, try_except, saved. cbn [disk].
    now rewrite disk_read_write_same, Hfail. }
  now rewrite (respond_to_nothing E path _ _ _
                 (process_pdf_without_pages E path _ Hext Hnone) eq_refl).
Qed.

Lemma rasteriser_failure_is_an_extraction_failure_witness :
  upload_file Fixtures.env_rasteriser_fails
    (Fixtures.upload_named (u "broken.pdf")) Fixtures.fresh =
    (Ok (Some {| status := 500;
                 body := PDict [(PStr (u "error"),
                                 PStr (u "Failed to extract data from the file. Ensure the file contains readable medical report data."))] |}),
     {| disk := [(u "Uploads/broken.pdf", Fixtures.some_bytes)]; model_calls := [] |}).
Proof.
  apply (rasteriser_failure_is_an_extraction_failure Fixtures.env_rasteriser_fails
           {| filename := u "broken.pdf"; stream := Fixtures.some_bytes |}
           Fixtures.fresh (u "Unable to get page count.")).
  - discriminate.
  - reflexivity.
  - vm_compute. reflexivity.
  - reflexivity.
Defined.

(* ================================================================== *)
(** * Further properties: the test on a single page *)

(** X4. A single page whose two mappings are both falsy (empty dicts,
    but also [[]], [0], [""], [null] or [false]) is answered with the 500
    extraction-failure message. *)
Theorem single_empty_page_is_an_extraction_failure
    (E : env) (file : file_storage) (w w' : world) (r : page_result)
    (kv et : pyval) :
  let path := OsPath.join UPLOAD_FOLDER (filename file) in
  filename file <> [] ->
  save_fails E path = None ->
  process_uploaded_file E path (saved path file w) = (Ok [r], w') ->
  subscript (data r) (u "key_value_pairs") = Ok kv ->
  subscript (data r) (u "extracted_tests") = Ok et ->
  truthy kv = false ->
  truthy et = false ->
  upload_file E {| files_file := Some file |} w =
    (Ok (Some {| status := 500;
                 body := PDict [(PStr (u "error"),
                                 PStr (u "Failed to extract data from the file. Ensure the file contains readable medical report data."))] |}),
     w').
Proof.
  intros path Hname Hsave Hproc Hkv Het Hk He.
  rewrite (upload_file_saved E file w Hname Hsave). cbv zeta. fold path.
  rewrite (respond_to_nothing E path _ _ _ Hproc); [reflexivity|].
  unfold nothing_extracted.
  change str_key_value_pairs with (u "key_value_pairs").
  change str_extracted_tests with (u "extracted_tests").
  rewrite Hkv. cbn [rbind]. rewrite Hk, Het. cbn [rbind]. now rewrite He.
Qed.

Lemma single_empty_page_is_an_extraction_failure_witness :
  upload_file
    (Fixtures.env_replying
       (u "{" ++ Fixtures.quoted "key_value_pairs" ++ u ": [], "
          ++ Fixtures.quoted "extracted_tests" ++ u ": 0}"))
    (Fixtures.upload_named (u "scan.png")) Fixtures.fresh =
    (Ok (Some {| status := 500;
                 body := PDict [(PStr (u "error"),
                                 PStr (u "Failed to extract data from the file. Ensure the file contains readable medical report data."))] |}),
     {| disk := [(u "Uploads/scan.png", Fixtures.some_bytes)];
        model_calls := [(u "image/jpeg", Fixtures.some_bytes)] |}).
Proof.
  apply (single_empty_page_is_an_extraction_failure
           (Fixtures.env_replying
              (u "{" ++ Fixtures.quoted "key_value_pairs" ++ u ": [], "
                 ++ Fixtures.quoted "extracted_tests" ++ u ": 0}"))
           {| filename := u "scan.png"; stream := Fixtures.some_bytes |}
           Fixtures.fresh _
           {| page := 1;
              data := PDict [(PStr (u "key_value_pairs"), PList []);
                             (PStr (u "extracted_tests"), PInt 0)] |}
           (PList []) (PInt 0)).
  - discriminate.
  - reflexivity.
  - vm_compute. reflexivity.
  - vm_compute. reflexivity.
  - vm_compute. reflexivity.
  - reflexivity.
  - reflexivity.
Defined.

(** The answer to an image upload whose extraction is the default. *)
Lemma image_upload_default (E : env) (file : file_storage) (w : world) :
  let path := OsPath.join UPLOAD_FOLDER (filename file) in
  filename file <> [] ->
  save_fails E path = None ->
  mem (file_extension_of path) image_extensions = true ->
  extraction_of (generate_content_text E (List.length (model_calls w))
                   mime_jpeg (stream file)) = empty_extraction ->
  upload_file E {| files_file := Some file |} w =
    (Ok (Some {| status := 500; body := error_body extraction_failed_message |}),
     {| disk := disk_write path (stream file) (disk w);
        model_calls := model_calls w ++ [(mime_jpeg, stream file)] |}).
Proof.
  intros path Hname Hsave Hext Hdefault.
  rewrite (upload_file_saved E file w Hname Hsave). cbv zeta. fold path.
  assert (Hproc : process_uploaded_file E path (saved path file w) =
                  (Ok [{| page := 1; data := empty_extraction |}],
                   called mime_jpeg (stream file) (saved path file w))).
  { unfold process_uploaded_file. fold image_extensions.
    rewrite (image_extension_is_not_pdf _ Hext), Hext.
    unfold bind, read_file, saved at 1. cbn [disk].
    rewrite disk_read_write_same, extract_returns.
    unfold saved at 1. cbn [model_calls]. now rewrite Hdefault. }
  now rewrite (respond_to_nothing E path _ _ _ Hproc eq_refl).
Qed.

(** X5. When the call to the model fails on an image upload, the
    failure is not reported as such: after that one call, the answer is
    the 500 extraction-failure message, as for an image with nothing to
    extract. *)
Theorem model_failure_on_an_image_is_an_extraction_failure
    (E : env) (file : file_storage) (w : world) (msg : pystr) :
  let path := OsPath.join UPLOAD_FOLDER (filename file) in
  filename file <> [] ->
  save_fails E path = None ->
  mem (file_extension_of path) [u ".jpg"; u ".jpeg"; u ".png"] = true ->
  generate_content_text E (List.length (model_calls w)) (u "image/jpeg") (stream file)
    = Fails msg ->
  upload_file E {| files_file := Some file |} w =
    (Ok (Some {| status := 500;
                 body := PDict [(PStr (u "error"),
                                 PStr (u "Failed to extract data from the file. Ensure the file contains readable medical report data."))] |}),
     {| disk := disk_write path (stream file) (disk w);
        model_calls := model_calls w ++ [(u "image/jpeg", stream file)] |}).
Proof.
  intros path Hname Hsave Hext Hfail.
  apply (image_upload_default E file w Hname Hsave Hext).
  change (u "image/jpeg") with mime_jpeg in Hfail. now rewrite Hfail.
Qed.

Lemma model_failure_on_an_image_is_an_extraction_failure_witness :
  upload_file (Fixtures.env_model_down []) (Fixtures.upload_named (u "scan.jpeg"))
    Fixtures.fresh =
    (Ok (Some {| status := 500;
                 body := PDict [(PStr (u "error"),
                                 PStr (u "Failed to extract data from the file. Ensure the file contains readable medical report data."))] |}),
     {| disk := [(u "Uploads/scan.jpeg", Fixtures.some_bytes)];
        model_calls := [(u "image/jpeg", Fixtures.some_bytes)] |}).
Proof.
  apply (model_failure_on_an_image_is_an_extraction_failure
           (Fixtures.env_model_down [])
           {| filename := u "scan.jpeg"; stream := Fixtures.some_bytes |}
           Fixtures.fresh (u "503 unavailable")).
  - discriminate.
  - reflexivity.
  - vm_compute. reflexivity.
  - reflexivity.
Defined.

Lemma pages_from_model_down (E : env) (encoded : list bytes) :
  (forall n b, exists msg, generate_content_text E n mime_jpeg b = Fails msg) ->
  forall (n : nat) (first : Z),
    Forall (fun r => page_mapping str_key_value_pairs r = Some []
                     /\ page_mapping str_extracted_tests r = Some [])
           (pages_from E n first encoded).
Proof.
  intros Hdown. induction encoded as [|b encoded IH]; intros n first; simpl.
  - constructor.
  - constructor; [|apply IH].
    destruct (Hdown n b) as [msg ->]. split; reflexivity.
Qed.

(** X6. When every call to the model fails on a PDF of two or more
    pages, the upload is answered 200 with two empty mappings, after one
    call per page: the failure is invisible to the client. *)
Theorem model_failure_on_several_pages_is_answered_200
    (E : env) (file : file_storage) (w : world) (images : list image)
    (encoded : list bytes) :
  let path := OsPath.join UPLOAD_FOLDER (filename file) in
  filename file <> [] ->
  save_fails E path = None ->
  file_extension_of path = u ".pdf" ->
  fst (convert_pdf_to_images E path (saved path file w)) = Ok images ->
  (2 <= List.length images)%nat ->
  encodes E images encoded ->
  (forall n b, exists msg, generate_content_text E n (u "image/jpeg") b = Fails msg) ->
  upload_file E {| files_file := Some file |} w =
    (Ok (Some {| status := 200;
                 body := PDict [(PStr (u "data"),
                                 PDict [(PStr (u "key_value_pairs"), PDict []);
                                        (PStr (u "extracted_tests"), PDict [])])] |}),
     {| disk := disk_write path (stream file) (disk w);
        model_calls := model_calls w
                         ++ map (fun b => (u "image/jpeg", b)) encoded |}).
Proof.
  intros path Hname Hsave Hext Hconv Hlen Henc Hdown.
  rewrite (upload_file_saved E file w Hname Hsave). cbv zeta. fold path.
  destruct images as [|img rest]; [simpl in Hlen; lia|].
  pose proof (process_pdf_with_pages E path _ img rest Hext Hconv) as Hproc.
  rewrite (process_pages_encoded E _ _ Henc 0 [] _) in Hproc.
  cbn [app] in Hproc.
  set (results := pages_from E (List.length (model_calls (saved path file w))) (0 + 1) encoded)
    in Hproc.
  assert (Hempty : Forall (fun r => page_mapping str_key_value_pairs r = Some []
                                    /\ page_mapping str_extracted_tests r = Some [])
                          results)
    by (apply pages_from_model_down; exact Hdown).
  assert (Hresults : (2 <= List.length results)%nat).
  { unfold results. rewrite pages_from_length, <- (Forall2_length Henc). exact Hlen. }
  rewrite (respond_to_results E path _ _ _ empty_extraction Hproc).
  - reflexivity.
  - destruct results as [|r1 [|r2 rest']]; simpl in Hresults; try lia. reflexivity.
  - destruct results as [|r1 [|r2 rest']]; simpl in Hresults; try lia.
    unfold final_output_of. now rewrite (combine_empty_pages _ [] [] Hempty).
  - reflexivity.
Qed.

Lemma model_failure_on_several_pages_is_answered_200_witness :
  upload_file (Fixtures.env_model_down [Fixtures.some_bytes; []])
    (Fixtures.upload_named (u "report.pdf")) Fixtures.fresh =
    (Ok (Some {| status := 200;
                 body := PDict [(PStr (u "data"),
                                 PDict [(PStr (u "key_value_pairs"), PDict []);
                                        (PStr (u "extracted_tests"), PDict [])])] |}),
     {| disk := [(u "Uploads/report.pdf", Fixtures.some_bytes)];
        model_calls := [(u "image/jpeg", Fixtures.some_bytes); (u "image/jpeg", [])] |}).
Proof.
  apply (model_failure_on_several_pages_is_answered_200
           (Fixtures.env_model_down [Fixtures.some_bytes; []])
           {| filename := u "report.pdf"; stream := Fixtures.some_bytes |}
           Fixtures.fresh [Fixtures.some_bytes; []] [Fixtures.some_bytes; []]).
  - discriminate.
  - reflexivity.
  - vm_compute. reflexivity.
  - vm_compute. reflexivity.
  - simpl. lia.
  - repeat constructor.
  - intros n b. eexists. reflexivity.
Defined.

(** X7. A single page whose data is an object without the key
    [key_value_pairs] is answered 500 with the text of the KeyError:
    "Processing failed: 'key_value_pairs'". *)
Theorem single_page_without_key_value_pairs
    (E : env) (file : file_storage) (w w' : world) (r : page_result) (d : pydict) :
  let path := OsPath.join UPLOAD_FOLDER (filename file) in
  filename file <> [] ->
  save_fails E path = None ->
  process_uploaded_file E path (saved path file w) = (Ok [r], w') ->
  data r = PDict d ->
  dict_get (PStr (u "key_value_pairs")) d = None ->
  upload_file E {| files_file := Some file |} w =
    (Ok (Some {| status := 500;
                 body := PDict [(PStr (u "error"),
                                 PStr (u "Processing failed: 'key_value_pairs'"))] |}),
     w').
Proof.
  intros path Hname Hsave Hproc Hdata Hmissing.
  rewrite (upload_file_saved E file w Hname Hsave). cbv zeta. fold path.
  unfold process_and_respond, try_except, bind, lift. rewrite Hproc.
  unfold nothing_extracted, subscript. rewrite Hdata.
  change (PStr str_key_value_pairs) with (PStr (u "key_value_pairs")).
  rewrite Hmissing. reflexivity.
Qed.

Lemma single_page_without_key_value_pairs_witness :
  upload_file (Fixtures.env_replying (u "{}")) (Fixtures.upload_named (u "scan.jpg"))
    Fixtures.fresh =
    (Ok (Some {| status := 500;
                 body := PDict [(PStr (u "error"),
                                 PStr (u "Processing failed: 'key_value_pairs'"))] |}),
     {| disk := [(u "Uploads/scan.jpg", Fixtures.some_bytes)];
        model_calls := [(u "image/jpeg", Fixtures.some_bytes)] |}).
Proof.
  apply (single_page_without_key_value_pairs (Fixtures.env_replying (u "{}"))
           {| filename := u "scan.jpg"; stream := Fixtures.some_bytes |}
           Fixtures.fresh _ {| page := 1; data := PDict [] |} []).
  - discriminate.
  - reflexivity.
  - vm_compute. reflexivity.
  - reflexivity.
  - reflexivity.
Defined.

(** X8. On a single page, [extracted_tests] is looked up only when
    [key_value_pairs] is falsy: with a truthy [key_value_pairs] and no
    [extracted_tests] the data is returned with status 200, with a
    falsy one the answer is 500 "Processing failed: 'extracted_tests'". *)
Theorem extracted_tests_is_read_only_when_needed
    (E : env) (file : file_storage) (w w' : world) (r : page_result)
    (d : pydict) (kv : pyval) :
  let path := OsPath.join UPLOAD_FOLDER (filename file) in
  filename file <> [] ->
  save_fails E path = None ->
  process_uploaded_file E path (saved path file w) = (Ok [r], w') ->
  data r = PDict d ->
  dict_get (PStr (u "key_value_pairs")) d = Some kv ->
  dict_get (PStr (u "extracted_tests")) d = None ->
  upload_file E {| files_file := Some file |} w =
    (Ok (Some (if truthy kv
               then {| status := 200; body := PDict [(PStr (u "data"), data r)] |}
               else {| status := 500;
                       body := PDict [(PStr (u "error"),
                                       PStr (u "Processing failed: 'extracted_tests'"))] |})),
     w').
Proof.
  intros path Hname Hsave Hproc Hdata Hkv Het.
  rewrite (upload_file_saved E file w Hname Hsave). cbv zeta. fold path.
  destruct (truthy kv) eqn:Hk.
  - rewrite (respond_to_results E path _ _ _ (data r) Hproc).
    + reflexivity.
    + unfold nothing_extracted, subscript. rewrite Hdata.
      change (PStr str_key_value_pairs) with (PStr (u "key_value_pairs")).
      rewrite Hkv. cbn [rbind]. now rewrite Hk.
    + reflexivity.
    + apply json_value_orderable.
      pose proof (process_uploaded_file_json E path _ _ _ Hproc) as Hjson.
      now inversion Hjson.
  - unfold process_and_respond, try_except, bind, lift. rewrite Hproc.
    unfold nothing_extracted, subscript. rewrite Hdata.
    change (PStr str_key_value_pairs) with (PStr (u "key_value_pairs")).
    change (PStr str_extracted_tests) with (PStr (u "extracted_tests")).
    rewrite Hkv. cbn [rbind]. rewrite Hk, Het. reflexivity.
Qed.

Lemma extracted_tests_is_read_only_when_needed_witness :
  upload_file
    (Fixtures.env_replying
       (u "{" ++ Fixtures.quoted "key_value_pairs" ++ u ": {"
          ++ Fixtures.quoted "age" ++ u ": 41}}"))
    (Fixtures.upload_named (u "scan.jpg")) Fixtures.fresh =
    (Ok (Some {| status := 200;
                 body := PDict [(PStr (u "data"),
                                 PDict [(PStr (u "key_value_pairs"),
                                         PDict [(PStr (u "age"), PInt 41)])])] |}),
     {| disk := [(u "Uploads/scan.jpg", Fixtures.some_bytes)];
        model_calls := [(u "image/jpeg", Fixtures.some_bytes)] |}).
Proof.
  apply (extracted_tests_is_read_only_when_needed
           (Fixtures.env_replying
              (u "{" ++ Fixtures.quoted "key_value_pairs" ++ u ": {"
                 ++ Fixtures.quoted "age" ++ u ": 41}}"))
           {| filename := u "scan.jpg"; stream := Fixtures.some_bytes |}
           Fixtures.fresh _
           {| page := 1;
              data := PDict [(PStr (u "key_value_pairs"),
                              PDict [(PStr (u "age"), PInt 41)])] |}
           [(PStr (u "key_value_pairs"), PDict [(PStr (u "age"), PInt 41)])]
           (PDict [(PStr (u "age"), PInt 41)])).
  - discriminate.
  - reflexivity.
  - vm_compute. reflexivity.
  - reflexivity.
  - reflexivity.
  - reflexivity.
Defined.

(** X9. A single page whose data is not an object (a list, a string, a
    number, [true], [false] or [null], all of which the parser lets
    through) is answered 500 "Processing failed: ..." with the text of
    the TypeError that subscripting it raises. *)
Theorem single_page_that_is_not_an_object
    (E : env) (file : file_storage) (w w' : world) (r : page_result) :
  let path := OsPath.join UPLOAD_FOLDER (filename file) in
  filename file <> [] ->
  save_fails E path = None ->
  process_uploaded_file E path (saved path file w) = (Ok [r], w') ->
  (forall d, data r <> PDict d) ->
  exists f : fault,
    (f = BadIndex (data r) \/ f = NotSubscriptable (data r))
    /\ upload_file E {| files_file := Some file |} w =
         (Ok (Some {| status := 500;
                      body := PDict [(PStr (u "error"),
                                      PStr (u "Processing failed: "
                                              ++ exn_text E (LibraryError f)))] |}),
          w').
Proof.
  intros path Hname Hsave Hproc Hnot.
  rewrite (upload_file_saved E file w Hname Hsave). cbv zeta. fold path.
  unfold process_and_respond, try_except, bind, lift. rewrite Hproc.
  unfold nothing_extracted, subscript.
  destruct (data r) as [ | b | z | f | s | l | d] eqn:Hdata;
    try (now exists (NotSubscriptable (data r)); rewrite Hdata; split; [right|]);
    try (now exists (BadIndex (data r)); rewrite Hdata; split; [left|]).
  exfalso. exact (Hnot d eq_refl).
Qed.

Lemma single_page_that_is_not_an_object_witness :
  exists f : fault,
    (f = BadIndex (PList []) \/ f = NotSubscriptable (PList []))
    /\ upload_file (Fixtures.env_replying (u "[]")) (Fixtures.upload_named (u "scan.jpg"))
         Fixtures.fresh =
         (Ok (Some {| status := 500;
                      body := PDict [(PStr (u "error"),
                                      PStr (u "Processing failed: "
                                              ++ exn_text (Fixtures.env_replying (u "[]"))
                                                   (LibraryError f)))] |}),
          {| disk := [(u "Uploads/scan.jpg", Fixtures.some_bytes)];
             model_calls := [(u "image/jpeg", Fixtures.some_bytes)] |}).
Proof.
  apply (single_page_that_is_not_an_object (Fixtures.env_replying (u "[]"))
           {| filename := u "scan.jpg"; stream := Fixtures.some_bytes |}
           Fixtures.fresh _ {| page := 1; data := PList [] |}).
  - discriminate.
  - reflexivity.
  - vm_compute. reflexivity.
  - discriminate.
Defined.

(* ================================================================== *)
(** * Further properties: merging *)




Lemma last_bound_comes_from (lookups : list (option pyval)) (v : pyval) :
  last_bound lookups = Some v -> In (Some v) lookups.
Proof.
  induction lookups as [|x lookups IH]; simpl; [discriminate|].
  destruct (last_bound lookups) as [v'|].
  - intros [= ->]. right. now apply IH.
  - intros ->. now left.
Qed.

(** X11. Merging invents nothing: with two or more pages that have
    their mappings, every key bound in a combined mapping is bound to
    the same value in that mapping of some page. *)
Theorem merged_bindings_come_from_a_page
    (E : env) (file : file_storage) (w w' : world) (results : list page_result) :
  let path := OsPath.join UPLOAD_FOLDER (filename file) in
  filename file <> [] ->
  save_fails E path = None ->
  process_uploaded_file E path (saved path file w) = (Ok results, w') ->
  (2 <= List.length results)%nat ->
  Forall has_mappings results ->
  exists resp : response,
    upload_file E {| files_file := Some file |} w = (Ok (Some resp), w')
    /\ forall (field key : pystr) (v : pyval),
         In field [u "key_value_pairs"; u "extracted_tests"] ->
         response_lookup field key resp = Some v ->
         exists r, In r results /\ page_lookup field key r = Some v.
Proof.
  intros path Hname Hsave Hproc Hlen Hmaps.
  pose proof (process_uploaded_file_json E path _ _ _ Hproc) as Hjson.
  destruct (combine_pages_lookup results Hjson Hmaps [] [] eq_refl eq_refl)
    as (K & T & Hcomb & HK & HT & HgetK & HgetT).
  set (out := PDict [(PStr str_key_value_pairs, PDict K);
                     (PStr str_extracted_tests, PDict T)]).
  exists {| status := 200; body := data_body out |}. split.
  - rewrite (upload_file_saved E file w Hname Hsave). cbv zeta. fold path.
    rewrite (respond_to_results E path _ _ _ out Hproc); try reflexivity.
    + destruct results as [|r1 [|r2 rest]]; simpl in Hlen; try lia. reflexivity.
    + destruct results as [|r1 [|r2 rest]]; simpl in Hlen; try lia.
      unfold final_output_of. now rewrite Hcomb.
    + apply json_value_orderable.
      change (json_value out)
        with (json_value (PDict K) && (json_value (PDict T) && true) && true).
      now rewrite HK, HT.
  - intros field key v Hfield Hlookup.
    assert (Hlast : last_bound (map (page_lookup field key) results) = Some v).
    { destruct Hfield as [<-|[<-|[]]].
      - change (dict_get (PStr key) K = Some v) in Hlookup.
        rewrite HgetK in Hlookup.
        change str_key_value_pairs with (u "key_value_pairs") in Hlookup.
        destruct (last_bound (map (page_lookup (u "key_value_pairs") key) results));
          [exact Hlookup | discriminate Hlookup].
      - change (dict_get (PStr key) T = Some v) in Hlookup.
        rewrite HgetT in Hlookup.
        change str_extracted_tests with (u "extracted_tests") in Hlookup.
        destruct (last_bound (map (page_lookup (u "extracted_tests") key) results));
          [exact Hlookup | discriminate Hlookup]. }
    apply last_bound_comes_from, in_map_iff in Hlast as (r & Hr & Hin).
    now exists r.
Qed.

Lemma merged_bindings_come_from_a_page_witness :
  exists resp : response,
    upload_file
      (Fixtures.env_with_pages [Fixtures.some_bytes; []] Fixtures.two_page_replies)
      (Fixtures.upload_named (u "report.pdf")) Fixtures.fresh
    = (Ok (Some resp),
       {| disk := [(u "Uploads/report.pdf", Fixtures.some_bytes)];
          model_calls := [(u "image/jpeg", Fixtures.some_bytes); (u "image/jpeg", [])] |})
    /\ forall v : pyval,
         response_lookup (u "extracted_tests") (u "glucose") resp = Some v ->
         exists r,
           In r [{| page := 1; data := Fixtures.first_page_data |};
                 {| page := 2; data := Fixtures.second_page_data |}]
           /\ page_lookup (u "extracted_tests") (u "glucose") r = Some v.
Proof.
  destruct (merged_bindings_come_from_a_page
              (Fixtures.env_with_pages [Fixtures.some_bytes; []] Fixtures.two_page_replies)
              {| filename := u "report.pdf"; stream := Fixtures.some_bytes |}
              Fixtures.fresh
              {| disk := [(u "Uploads/report.pdf", Fixtures.some_bytes)];
                 model_calls := [(u "image/jpeg", Fixtures.some_bytes);
                                 (u "image/jpeg", [])] |}
              [{| page := 1; data := Fixtures.first_page_data |};
               {| page := 2; data := Fixtures.second_page_data |}])
    as (resp & Hup & Hfrom).
  - discriminate.
  - reflexivity.
  - vm_compute. reflexivity.
  - simpl. lia.
  - repeat constructor; eexists; eexists; split; vm_compute; reflexivity.
  - exists resp. split; [exact Hup|].
    intros v Hv.
    exact (Hfrom (u "extracted_tests") (u "glucose") v
             (or_intror (or_introl eq_refl)) Hv).
Defined.

(* ================================================================== *)
(** * Further properties: the answers of the endpoint *)

(** After the save, the endpoint always answers: 200 with a [data]
    body or 500 with an [error] body. *)
Lemma process_and_respond_answers (E : env) (path : pystr) (w : world) :
  exists resp,
    fst (process_and_respond E path w) = Ok resp
    /\ ((status resp = 200 /\ is_data_body (body resp))
        \/ (status resp = 500 /\ is_error_body (body resp))).
Proof.
  unfold process_and_respond, try_except, bind, lift, jsonify.
  destruct (process_uploaded_file E path w) as [[results|e] w1].
  - destruct (nothing_extracted results) as [[|]|e].
    + eexists. split; [reflexivity|]. right. split; [reflexivity|].
      now eexists.
    + destruct (final_output_of results) as [out|e].
      * destruct (unorderable_dict (data_body out)) as [d|] eqn:Hord.
        -- eexists. split; [unfold raise; simpl; reflexivity|].
           right. split; [reflexivity | now eexists].
        -- eexists. split; [reflexivity|]. left. split; [reflexivity | now eexists].
      * eexists. split; [reflexivity|]. right. split; [reflexivity | now eexists].
    + eexists. split; [reflexivity|]. right. split; [reflexivity | now eexists].
  - eexists. split; [reflexivity|]. right. split; [reflexivity | now eexists].
Qed.

(** X12. Whatever the request and the outside world, the view either
    returns a response whose status is 200 with a body [{"data": ...}],
    or 400 or 500 with a body [{"error": ...}], or lets the exception
    of a failed [file.save] escape; it never returns nothing, and no
    other exception escapes. *)
Theorem upload_file_answers (E : env) (req : request) (w : world) :
  match fst (upload_file E req w) with
  | Ok (Some resp) =>
      (status resp = 200 /\ is_data_body (body resp))
      \/ ((status resp = 400 \/ status resp = 500) /\ is_error_body (body resp))
  | Ok None => False
  | Raise e =>
      exists file msg,
        files_file req = Some file
        /\ filename file <> []
        /\ save_fails E (OsPath.join UPLOAD_FOLDER (filename file)) = Some msg
        /\ e = ExternalError msg
  end.
Proof.
  destruct req as [[file|]].
  - destruct (PyStr.eqb (filename file) []) eqn:Hname.
    + unfold upload_file. simpl. rewrite Hname. simpl.
      right. split; [now left | now eexists].
    + apply pystr_eqb_neq in Hname.
      destruct (save_fails E (OsPath.join UPLOAD_FOLDER (filename file)))
        as [msg|] eqn:Hsave.
      * rewrite (failed_save_escapes E file w msg Hname Hsave). simpl.
        now exists file, msg.
      * rewrite (upload_file_saved E file w Hname Hsave). cbv zeta.
        destruct (process_and_respond_answers E
                    (OsPath.join UPLOAD_FOLDER (filename file))
                    (saved (OsPath.join UPLOAD_FOLDER (filename file)) file w))
          as (resp & Hresp & Hshape).
        destruct (process_and_respond E _ _) as [[r|e] w1]; simpl in Hresp;
          [|discriminate Hresp].
        injection Hresp as ->. simpl.
        destruct Hshape as [H|[Hs Hb]]; [now left | right; split; [now right | exact Hb]].
  - simpl. right. split; [now left | now eexists].
Qed.

(** X13. When [file.save] fails, its exception escapes the view: no
    JSON answer is built and the file is not processed (no model call),
    whatever its extension; the target is left as it was, or holding
    the bytes written before the failure. *)
Theorem save_failure_is_not_answered
    (E : env) (file : file_storage) (w : world) (msg : pystr) :
  let path := OsPath.join UPLOAD_FOLDER (filename file) in
  filename file <> [] ->
  save_fails E path = Some msg ->
  fst (upload_file E {| files_file := Some file |} w) = Raise (ExternalError msg)
  /\ model_calls (snd (upload_file E {| files_file := Some file |} w)) = model_calls w
  /\ (disk (snd (upload_file E {| files_file := Some file |} w)) = disk w
      \/ exists k : nat,
           disk (snd (upload_file E {| files_file := Some file |} w))
             = disk_write path (firstn k (stream file)) (disk w)).
Proof.
  intros path Hname Hsave.
  rewrite (failed_save_escapes E file w msg Hname Hsave). fold path.
  unfold after_failed_save. destruct (save_wrote E path) as [k|]; cbn [fst snd].
  - split; [reflexivity|]. split; [reflexivity|]. right. now exists k.
  - split; [reflexivity|]. split; [reflexivity|]. now left.
Qed.

Lemma save_failure_is_not_answered_witness :
  fst (upload_file Fixtures.env_disk_full (Fixtures.upload_named (u "scan.png"))
         Fixtures.fresh)
    = Raise (ExternalError (u "[Errno 28] No space left on device"))
  /\ model_calls (snd (upload_file Fixtures.env_disk_full
                         (Fixtures.upload_named (u "scan.png")) Fixtures.fresh)) = []
  /\ (disk (snd (upload_file Fixtures.env_disk_full
                   (Fixtures.upload_named (u "scan.png")) Fixtures.fresh)) = []
      \/ exists k : nat,
           disk (snd (upload_file Fixtures.env_disk_full
                        (Fixtures.upload_named (u "scan.png")) Fixtures.fresh))
             = disk_write (u "Uploads/scan.png") (firstn k Fixtures.some_bytes) []).
Proof.
  apply (save_failure_is_not_answered Fixtures.env_disk_full
           {| filename := u "scan.png"; stream := Fixtures.some_bytes |}
           Fixtures.fresh (u "[Errno 28] No space left on device")).
  - discriminate.
  - reflexivity.
Defined.

(* ================================================================== *)
(** * Further properties: what the dispatcher does to the world *)

Lemma process_pages_calls (E : env) (images : list image) :
  forall (idx : Z) (acc : list page_result) (w : world),
  exists sent : list bytes,
    snd (process_pages E idx images acc w) = after_calls (jpeg_calls sent) w
    /\ (List.length sent <= List.length images)%nat.
Proof.
  induction images as [|img rest IH]; intros idx acc w.
  - exists []. simpl. split; [now rewrite after_no_calls | lia].
  - cbn [process_pages]. unfold bind at 1.
    destruct (image_save_jpeg E img) as [b|msg]; simpl.
    + unfold bind at 1. rewrite extract_returns.
      destruct (IH (idx + 1)
                  (acc ++ [{| page := idx + 1;
                              data := extraction_of
                                        (generate_content_text E
                                           (List.length (model_calls w)) mime_jpeg b) |}])
                  (called mime_jpeg b w)) as (sent & Hsent & Hlen).
      exists (b :: sent). split; [|simpl; lia].
      rewrite Hsent. unfold called, after_calls. cbn [model_calls disk jpeg_calls map].
      now rewrite <- app_assoc.
    + exists []. split; [now rewrite after_no_calls | simpl; lia].
Qed.

(** X15. Whatever the path and whatever happens, the dispatcher leaves
    the disk as it is and only adds calls to the model: at most one for
    an image and one per page for a PDF, none for another extension,
    each sent as image/jpeg. *)
Theorem dispatcher_only_adds_jpeg_calls (E : env) (path : pystr) (w : world) :
  exists sent : list bytes,
    snd (process_uploaded_file E path w) =
      {| disk := disk w;
         model_calls := model_calls w ++ map (fun b => (u "image/jpeg", b)) sent |}
    /\ (List.length sent
        <= match fst (convert_pdf_to_images E path w) with
           | Ok images =>
               if mem (file_extension_of path) [u ".pdf"] then List.length images
               else if mem (file_extension_of path) [u ".jpg"; u ".jpeg"; u ".png"]
                    then 1
                    else 0
           | Raise _ => 0
           end)%nat.
Proof.
  unfold process_uploaded_file.
  destruct (convert_pdf_to_images_total E path w) as [images Hconv].
  rewrite Hconv. cbn [fst].
  destruct (mem (file_extension_of path) [u ".pdf"]).
  - unfold bind. rewrite Hconv. destruct images as [|img rest].
    + exists []. simpl. split; [|lia].
      change (after_calls [] w = w) || idtac.
      destruct w. simpl. now rewrite app_nil_r.
    + destruct (process_pages_calls E (img :: rest) 0 [] w) as (sent & Hsent & Hlen).
      exists sent. split; [exact Hsent | exact Hlen].
  - destruct (mem (file_extension_of path) _).
    + unfold bind, read_file. destruct (disk_read path (disk w)) as [content|].
      * rewrite extract_returns. exists [content]. split; [reflexivity | simpl; lia].
      * exists []. simpl. split; [|lia]. destruct w. simpl. now rewrite app_nil_r.
    + exists []. simpl. split; [|lia]. destruct w. simpl. now rewrite app_nil_r.
Qed.

(* ================================================================== *)
(** * Further properties: fenced replies *)

Lemma re_search_fence_skips (pre s : pystr) :
  no_backtick pre = true ->
  re_search_fence (pre ++ s) = re_search_fence s.
Proof.
  induction pre as [|c pre IH]; intros Hpre; [reflexivity|].
  simpl in Hpre. apply andb_prop in Hpre as [Hc Hpre].
  cbn [app]. rewrite re_search_fence_unfold.
  assert (Hhere : match_fence_here (c :: pre ++ s) = None).
  { unfold match_fence_here.
    change (startswith fence_open (c :: pre ++ s))
      with (N.eqb backtick c && startswith (tl fence_open) (pre ++ s)).
    rewrite N.eqb_sym. apply negb_true_iff in Hc. now rewrite Hc. }
  rewrite Hhere. now apply IH.
Qed.

Lemma before_first_fence_close (inner post : pystr) :
  no_backtick inner = true ->
  before_first fence_close (inner ++ fence_close ++ post) = Some inner.
Proof.
  induction inner as [|c inner IH]; intros Hinner.
  - rewrite before_first_unfold.
    assert (Hs : startswith fence_close ([] ++ fence_close ++ post) = true)
      by (apply startswith_spec; now exists post).
    now rewrite Hs.
  - simpl in Hinner. apply andb_prop in Hinner as [Hc Hinner].
    rewrite before_first_unfold.
    assert (Hs : startswith fence_close ((c :: inner) ++ fence_close ++ post) = false).
    { destruct inner as [|c' inner].
      - change (startswith fence_close ([c] ++ fence_close ++ post))
          with (N.eqb 10 c && false).
        apply andb_false_r.
      - simpl in Hinner. apply andb_prop in Hinner as [Hc' _].
        change (startswith fence_close ((c :: c' :: inner) ++ fence_close ++ post))
          with (N.eqb 10 c
                && (N.eqb backtick c'
                    && startswith (u "``") (inner ++ fence_close ++ post))).
        rewrite (N.eqb_sym backtick c'). apply negb_true_iff in Hc'.
        rewrite Hc'. apply andb_false_r. }
    rewrite Hs. cbn [app]. now rewrite (IH Hinner).
Qed.

(** X16. A JSON text wrapped in a fence comes back out: when neither
    the text before the opening fence nor the interior holds a
    backtick, the candidate is the stripped interior, whatever follows
    the closing fence. *)
Theorem fenced_interior_is_recovered (pre inner post : pystr) :
  no_backtick pre = true ->
  no_backtick inner = true ->
  json_candidate (pre ++ u "```json" ++ [10%N] ++ inner ++ [10%N] ++ u "```" ++ post)
    = strip inner.
Proof.
  intros Hpre Hinner. unfold json_candidate.
  change (pre ++ u "```json" ++ [10%N] ++ inner ++ [10%N] ++ u "```" ++ post)
    with (pre ++ fence_open ++ inner ++ fence_close ++ post).
  rewrite (re_search_fence_skips pre _ Hpre), re_search_fence_unfold.
  unfold match_fence_here.
  assert (Hs : startswith fence_open (fence_open ++ inner ++ fence_close ++ post) = true)
    by (apply startswith_spec; now eexists).
  rewrite Hs, skipn_app_length, (before_first_fence_close inner post Hinner).
  reflexivity.
Qed.

Lemma fenced_interior_is_recovered_witness :
  json_candidate (u "Here is the result:" ++ u "```json" ++ [10%N]
                    ++ u " {} " ++ [10%N] ++ u "```" ++ u " and ```more```")
    = u "{}".
Proof.
  apply (fenced_interior_is_recovered (u "Here is the result:") (u " {} ")
           (u " and ```more```")); reflexivity.
Defined.

Lemma rstrip_head (c : N) (s : pystr) :
  isspace c = false -> rstrip (c :: s) = c :: rstrip s.
Proof.
  intros Hc. unfold rstrip. cbn [rev].
  assert (H : forall l, lstrip (l ++ [c]) = lstrip l ++ [c]).
  { induction l as [|x l IH]; simpl; [now rewrite Hc|].
    destruct (isspace x); [exact IH | reflexivity]. }
  rewrite H, rev_app_distr. reflexivity.
Qed.

Lemma loads_rejects_backtick (s : pystr) :
  Json.loads (backtick :: s) = Raise JSONDecodeError.
Proof. reflexivity. Qed.

(** X17. A reply that opens with a backtick and holds no complete
    fenced block, such as a fenced answer cut off before its closing
    fence, is extracted as the default empty result. *)
Theorem unterminated_fence_gives_the_default
    (E : env) (image_data : bytes) (mime_type : pystr) (w : world) (rest : pystr) :
  generate_content_text E (List.length (model_calls w)) mime_type image_data
    = Answer (u "`" ++ rest) ->
  (forall pre inner post, ~ fenced (u "`" ++ rest) pre inner post) ->
  fst (extract_medical_terms_with_gemini_image E image_data mime_type w)
    = Ok (PDict [(PStr (u "key_value_pairs"), PDict []);
                 (PStr (u "extracted_tests"), PDict [])]).
Proof.
  intros Hreply Hopen. rewrite extract_returns, Hreply.
  cbn [fst extraction_of]. unfold parse_reply, json_candidate.
  destruct (re_search_fence (u "`" ++ rest)) as [g|] eqn:Hsearch.
  - exfalso. destruct (re_search_fence_some _ _ Hsearch) as (pre & post & Hf & _).
    exact (Hopen pre g post Hf).
  - change (u "`" ++ rest) with (backtick :: rest).
    unfold strip. cbn [lstrip]. change (isspace backtick) with false. cbv iota.
    rewrite (rstrip_head backtick rest eq_refl), loads_rejects_backtick.
    reflexivity.
Qed.

Lemma unterminated_fence_gives_the_default_witness :
  fst (extract_medical_terms_with_gemini_image
         (Fixtures.env_replying
            (u "`" ++ u "``json" ++ [10%N] ++ u "{" ++ Fixtures.quoted "key_value_pairs"
               ++ u ": {" ++ Fixtures.quoted "name"))
         Fixtures.some_bytes mime_jpeg Fixtures.fresh)
    = Ok (PDict [(PStr (u "key_value_pairs"), PDict []);
                 (PStr (u "extracted_tests"), PDict [])]).
Proof.
  apply (unterminated_fence_gives_the_default
           (Fixtures.env_replying
              (u "`" ++ u "``json" ++ [10%N] ++ u "{" ++ Fixtures.quoted "key_value_pairs"
                 ++ u ": {" ++ Fixtures.quoted "name"))
           Fixtures.some_bytes mime_jpeg Fixtures.fresh
           (u "``json" ++ [10%N] ++ u "{" ++ Fixtures.quoted "key_value_pairs"
              ++ u ": {" ++ Fixtures.quoted "name")).
  - reflexivity.
  - apply re_search_fence_none. vm_compute. reflexivity.
Defined.
